(** * inscriptis.css: the CSS style resolver, embedded and verified

    The development follows [src/inscriptis/css.py]:

    - [Py]: the Python 3 built-ins the module calls ([str.lower],
      [str.split], [str.strip], [str.replace], [in], [float], [round]);
    - [Re]: the backtracking matcher behind [re.search] for patterns of
      the shape of [RE_UNIT];
    - [HtmlElement], [CssParse], [DEFAULT_CSS]: the classes and the table of
      the module, over an explicit object store, since [HtmlElement]s are
      mutable objects passed by reference.

    The semantics is Python 3's: [round] with one argument returns an
    [int] and takes ties to even, a [str] is a sequence of code points.
    A [str] is modelled as a [string] whose characters are the code
    points U+0000..U+00FF; the character classes below are Python's on
    that range. *)

From Stdlib Require Import ZArith NArith Lia Bool List Ascii String SpecFloat.
From stdpp Require Import base option gmap strings.

Local Open Scope string_scope.
Local Open Scope Z_scope.

(* ===================================================================== *)
(** * Python built-ins *)
(* ===================================================================== *)

Module Py.

(** ** Exceptions and results *)

Inductive exn := AttributeError | ValueError | OverflowError.

#[global] Instance exn_eq_dec : EqDecision exn.
Proof. solve_decision. Defined.

Inductive result (A : Type) :=
| Ok (a : A)
| Raise (e : exn).
Arguments Ok {A} a.
Arguments Raise {A} e.

Definition rbind {A B} (r : result A) (k : A -> result B) : result B :=
  match r with
  | Ok a => k a
  | Raise e => Raise e
  end.

(** ** Characters *)

Definition code (c : ascii) : N := N_of_ascii c.

Definition between (lo hi : N) (c : ascii) : bool :=
  ((lo <=? code c) && (code c <=? hi))%N.

(** [str.isspace] on one character, which [str.strip()] strips. *)
Definition isspace (c : ascii) : bool :=
  between 9 13 c || between 28 32 c || (code c =? 133)%N || (code c =? 160)%N.

(** The characters [str.lower] maps: A-Z and the Latin-1 capitals. *)
Definition isupper (c : ascii) : bool :=
  between 65 90 c || between 192 214 c || between 216 222 c.

Definition lower_char (c : ascii) : ascii :=
  if isupper c then ascii_of_N (code c + 32) else c.

(** ** Strings *)

(** [s.lower()] *)
Fixpoint lower (s : string) : string :=
  match s with
  | EmptyString => EmptyString
  | String c s' => String (lower_char c) (lower s')
  end.

(** [s.startswith(p)] *)
Fixpoint startswith (p s : string) : bool :=
  match p, s with
  | EmptyString, _ => true
  | String a p', String b s' => Ascii.eqb a b && startswith p' s'
  | String _ _, EmptyString => false
  end.

(** [sub in s] *)
Fixpoint contains (sub s : string) : bool :=
  startswith sub s ||
  match s with
  | EmptyString => false
  | String _ s' => contains sub s'
  end.

(** [s.split(sep)] for a separator of one character: every occurrence
    splits, empty pieces are kept. *)
Fixpoint split (sep : ascii) (s : string) : list string :=
  match s with
  | EmptyString => [EmptyString]
  | String c s' =>
      if Ascii.eqb c sep then EmptyString :: split sep s'
      else match split sep s' with
           | p :: ps => String c p :: ps
           | [] => [String c EmptyString]
           end
  end.

(** [s.split(sep, 1)] for a separator of one character: at most one
    split, at the first occurrence. *)
Fixpoint split1 (sep : ascii) (s : string) : list string :=
  match s with
  | EmptyString => [EmptyString]
  | String c s' =>
      if Ascii.eqb c sep then [EmptyString; s']
      else match split1 sep s' with
           | p :: ps => String c p :: ps
           | [] => [String c EmptyString]
           end
  end.

Fixpoint lstrip (s : string) : string :=
  match s with
  | EmptyString => EmptyString
  | String c s' => if isspace c then lstrip s' else s
  end.

Fixpoint rstrip (s : string) : string :=
  match s with
  | EmptyString => EmptyString
  | String c s' =>
      match rstrip s' with
      | EmptyString => if isspace c then EmptyString else String c EmptyString
      | r => String c r
      end
  end.

(** [s.strip()] *)
Definition strip (s : string) : string := rstrip (lstrip s).

(** [s.replace(old, new)]: the occurrences of [old] are found left to
    right and do not overlap.  [skip] counts the characters of an
    occurrence that are still to be dropped. *)
Fixpoint replace_from (old new : string) (skip : nat) (s : string) : string :=
  match s with
  | EmptyString => EmptyString
  | String c s' =>
      match skip with
      | S k => replace_from old new k s'
      | O =>
          if startswith old s
          then new ++ replace_from old new (Nat.pred (String.length old)) s'
          else String c (replace_from old new O s')
      end
  end.

Fixpoint intersperse (new s : string) : string :=
  match s with
  | EmptyString => new
  | String c s' => new ++ String c (intersperse new s')
  end.

Definition replace (old new s : string) : string :=
  match old with
  | EmptyString => intersperse new s
  | _ => replace_from old new O s
  end.

(** ** Floats

    A Python [float] is an IEEE 754 binary64 number: the Standard
    Library's [spec_float] at precision 53 and maximal exponent 1024,
    rounding to nearest, ties to even. *)

Definition prec : Z := 53.
Definition emax : Z := 1024.

(** The float nearest to [n / d], for [0 <= n] and [0 < d], with the sign
    [neg]: the quotient is cut by the library's division core, which
    keeps the position of the remainder, and rounded once. *)
Definition float_of_ratio (neg : bool) (n d : Z) : spec_float :=
  if n =? 0 then S754_zero neg
  else
    let '(q, e, l) := SFdiv_core_binary prec emax n 0 d 0 in
    binary_round_aux prec emax neg q e l.

Definition digit_val (c : ascii) : option Z :=
  if between 48 57 c then Some (Z.of_N (code c) - 48) else None.

(** The digits and the point of a decimal literal: [mant] collects the
    digits read, [scale] counts those behind the point, [digits] tells
    whether a digit was read and [dot] whether the point was. *)
Fixpoint read_decimal (s : string) (dot digits : bool) (mant : Z) (scale : nat)
  : option (Z * nat) :=
  match s with
  | EmptyString => if digits then Some (mant, scale) else None
  | String c s' =>
      match digit_val c with
      | Some d =>
          read_decimal s' dot true (10 * mant + d) (if dot then S scale else scale)
      | None =>
          if Ascii.eqb c "." && negb dot
          then read_decimal s' true digits mant scale
          else None
      end
  end.

(** [float(s)] on the texts [RE_UNIT] can capture in its first group,
    those made of '-', '.' and the digits 0-9.  On them Python's literal
    syntax comes down to: an optional '-', then digits with at most one
    '.', and at least one digit; everything else is a [ValueError].  (The
    other forms [float] reads, with blanks, '+', '_', an exponent, or
    spelling inf or nan, need characters that group never holds.)  A
    literal beyond the largest float becomes an infinity. *)
Definition float (s : string) : result spec_float :=
  let '(neg, body) :=
    match s with
    | String "-" s' => (true, s')
    | _ => (false, s)
    end in
  match read_decimal body false false 0 O with
  | Some (mant, scale) => Ok (float_of_ratio neg mant (10 ^ Z.of_nat scale))
  | None => Raise ValueError
  end.

(** [x / 8], the true division of a float by the int 8 (converted to
    8.0 first). *)
Definition eight : spec_float := S754_finite false 4503599627370496 (-49).

Definition div8 (x : spec_float) : spec_float := SFdiv prec emax x eight.

(** The integer nearest to [m / 2^k], ties to the even one. *)
Definition round_half_even_shift (m : Z) (k : Z) : Z :=
  let q := Z.shiftr m k in
  let r := m - Z.shiftl q k in
  match Z.compare (2 * r) (Z.shiftl 1 k) with
  | Lt => q
  | Gt => q + 1
  | Eq => if Z.even q then q else q + 1
  end.

(** [round(x)] with one argument returns an [int], the integer nearest to
    [x], ties to even; it raises on the infinities and on NaN.  The
    [int(...)] around it in the source is then the identity. *)
Definition round (x : spec_float) : result Z :=
  match x with
  | S754_zero _ => Ok 0
  | S754_finite s m e =>
      let a := if 0 <=? e then Z.shiftl (Zpos m) e
               else round_half_even_shift (Zpos m) (- e) in
      Ok (if s then - a else a)
  | S754_infinity _ => Raise OverflowError
  | S754_nan => Raise ValueError
  end.

Definition int (z : Z) : Z := z.

(** A float that is zero or has the sign bit clear; the infinities and
    NaN, which [round] raises on, do not matter. *)
Definition unsigned (x : spec_float) : Prop :=
  match x with
  | S754_finite s _ _ => s = false
  | _ => True
  end.

End Py.


(* ===================================================================== *)
(** * Regular expressions *)
(* ===================================================================== *)

Module Re.

Import Py.

(** [\w] of a str pattern: the alphanumeric characters and '_'. *)
Definition word (c : ascii) : bool :=
  between 48 57 c || between 65 90 c || between 97 122 c || (code c =? 95)%N
  || (code c =? 170)%N || between 178 179 c || (code c =? 181)%N
  || between 185 186 c || between 188 190 c
  || between 192 214 c || between 216 246 c || between 248 255 c.

(** A pattern [(C1+)(C2+)...(Cn+)]: a sequence of capturing groups, each
    the greedy repetition, once or more, of a character class. *)
Definition pattern : Type := list (ascii -> bool).

(** [C+] followed by the rest of the pattern [k]: the repetition first
    takes all it can and gives characters back one at a time while [k]
    fails on what follows. *)
Fixpoint plus {A} (c : ascii -> bool) (k : string -> option A) (s : string)
  : option (string * A) :=
  match s with
  | EmptyString => None
  | String a s' =>
      if c a then
        match plus c k s' with
        | Some (g, r) => Some (String a g, r)
        | None =>
            match k s' with
            | Some r => Some (String a EmptyString, r)
            | None => None
            end
        end
      else None
  end.

(** A match at the start of [s]: the texts of the groups. *)
Fixpoint match_here (p : pattern) : string -> option (list string) :=
  match p with
  | [] => fun _ => Some []
  | c :: p' => fun s =>
      match plus c (match_here p') s with
      | Some (g, gs) => Some (g :: gs)
      | None => None
      end
  end.

(** [p.search(s)]: the match at the leftmost position that has one, or
    [None]. *)
Fixpoint search (p : pattern) (s : string) : option (list string) :=
  match match_here p s with
  | Some m => Some m
  | None =>
      match s with
      | EmptyString => None
      | String _ s' => search p s'
      end
  end.

(** [m.group(i)] for [1 <= i]; on [None], which has no attribute
    [group], the call raises [AttributeError]. *)
Definition group (m : option (list string)) (i : nat) : result string :=
  match m with
  | None => Raise AttributeError
  | Some gs => Ok (nth (Nat.pred i) gs EmptyString)
  end.

End Re.

(* ===================================================================== *)
(** * The object store *)
(* ===================================================================== *)

Definition loc : Type := positive.

Module Store.

Import Py.

Section Store.
(** The class of the objects in the store. *)
Context {O : Type}.

(** A statement runs on a store and leaves a store, with a value or an
    exception. *)
Definition M (A : Type) : Type := gmap loc O -> gmap loc O * result A.

Definition ret {A} (a : A) : M A := fun h => (h, Ok a).

Definition raise {A} (e : exn) : M A := fun h => (h, Raise e).

Definition bind {A B} (c : M A) (k : A -> M B) : M B :=
  fun h =>
    match c h with
    | (h', Ok a) => k a h'
    | (h', Raise e) => (h', Raise e)
    end.

(** A computation that does not touch the store. *)
Definition lift {A} (r : result A) : M A := fun h => (h, r).

(** Object creation. *)
Definition alloc (o : O) : M loc :=
  fun h => let l := fresh (dom h) in (<[l := o]> h, Ok l).

(** Attribute access [l.f]; a reference that holds no object has no
    attribute. *)
Definition getattr {A} (l : loc) (f : O -> A) : M A :=
  fun h =>
    match h !! l with
    | Some o => (h, Ok (f o))
    | None => (h, Raise AttributeError)
    end.

(** Attribute assignment [l.f = v], [upd] being the update of [f]. *)
Definition setattr (l : loc) (upd : O -> O) : M unit :=
  fun h =>
    match h !! l with
    | Some o => (<[l := upd o]> h, Ok tt)
    | None => (h, Raise AttributeError)
    end.

(** [try: body except e: pass] *)
Definition try_except_pass (e : exn) (body : M unit) : M unit :=
  fun h =>
    match body h with
    | (h', Raise e') => if decide (e' = e) then (h', Ok tt) else (h', Raise e')
    | r => r
    end.

(** [for x in xs: body(x)]; [continue] is the end of the body. *)
Fixpoint for_each {A} (xs : list A) (body : A -> M unit) : M unit :=
  match xs with
  | [] => ret tt
  | x :: xs' => bind (body x) (fun _ => for_each xs' body)
  end.
End Store.

Arguments M : clear implicits.

End Store.

Notation "x <- c ;; k" := (Store.bind c (fun x => k))
  (at level 100, c at next level, right associativity).
Notation "c ;;; k" := (Store.bind c (fun _ => k))
  (at level 100, right associativity).

Notation "'let*' x := c 'in' k" := (Py.rbind c (fun x => k))
  (at level 10, x name, c at level 100, k at level 200).

(* ===================================================================== *)
(** * inscriptis.html_properties *)
(* ===================================================================== *)

(** Modelled from the spec: the enumeration [Display] of
    [inscriptis.html_properties], which [css.py] imports and [src/] does
    not hold; the spec's data model gives its values as
    enum{block, inline, none}. *)
Module Display.
Inductive t := inline | block | none.
End Display.

(** Modelled from the spec: the enumeration [WhiteSpace] of
    [inscriptis.html_properties], which [css.py] imports and [src/] does
    not hold; the spec's data model gives its values as
    enum{normal, pre}. *)
Module WhiteSpace.
Inductive t := normal | pre.
End WhiteSpace.

(* ===================================================================== *)
(** * class HtmlElement *)
(* ===================================================================== *)

Module HtmlElement.

Import Py Store.

(** The slots of an [HtmlElement]. *)
Record t := Build {
  tag : string;
  prefix : string;
  suffix : string;
  display : Display.t;
  margin_before : Z;
  margin_after : Z;
  padding : Z;
  whitespace : WhiteSpace.t
}.

Definition set_display (v : Display.t) (o : t) : t :=
  Build (tag o) (prefix o) (suffix o) v
        (margin_before o) (margin_after o) (padding o) (whitespace o).

Definition set_margin_before (v : Z) (o : t) : t :=
  Build (tag o) (prefix o) (suffix o) (display o)
        v (margin_after o) (padding o) (whitespace o).

Definition set_margin_after (v : Z) (o : t) : t :=
  Build (tag o) (prefix o) (suffix o) (display o)
        (margin_before o) v (padding o) (whitespace o).

Definition set_padding (v : Z) (o : t) : t :=
  Build (tag o) (prefix o) (suffix o) (display o)
        (margin_before o) (margin_after o) v (whitespace o).

(** [HtmlElement(tag, prefix, suffix, display, margin_before,
    margin_after, padding, whitespace)]: a new object with the eight
    slots assigned. *)
Definition __init__ (tag prefix suffix : string) (display : Display.t)
    (margin_before margin_after padding : Z) (whitespace : WhiteSpace.t)
  : M t loc :=
  alloc (Build tag prefix suffix display
               margin_before margin_after padding whitespace).

(** The values [__init__] gives to the arguments a call leaves out. *)
Definition defaults : t :=
  Build "/" EmptyString EmptyString Display.inline 0 0 0 WhiteSpace.normal.

Definition clone (self : loc) : M t loc :=
  a1 <- getattr self tag ;;
  a2 <- getattr self prefix ;;
  a3 <- getattr self suffix ;;
  a4 <- getattr self display ;;
  a5 <- getattr self margin_before ;;
  a6 <- getattr self margin_after ;;
  a7 <- getattr self padding ;;
  a8 <- getattr self whitespace ;;
  __init__ a1 a2 a3 a4 a5 a6 a7 a8.

End HtmlElement.

(* ===================================================================== *)
(** * class CssParse *)
(* ===================================================================== *)

Module CssParse.

Import Py Store.

(** The class [[\-0-9\.]] *)
Definition num (c : ascii) : bool :=
  Ascii.eqb c "-" || between 48 57 c || Ascii.eqb c ".".

(** [RE_UNIT = re_compile(r'([\-0-9\.]+)(\w+)')] *)
Definition RE_UNIT : Re.pattern := [num; Re.word].

(** [x in xs] on a tuple of strings *)
Definition in_tuple (x : string) (xs : list string) : bool :=
  existsb (String.eqb x) xs.

Definition _get_em (length : string) : result Z :=
  let m := Re.search RE_UNIT length in
  let* g1 := Re.group m 1 in
  let* value := float g1 in
  let* unit := Re.group m 2 in
  if negb (in_tuple unit ["em"; "qem"; "rem"])
  then let* r := round (div8 value) in Ok (int r)
  else let* r := round value in Ok (int r).

Definition _attr_display (value : string) (html_element : loc)
  : M HtmlElement.t unit :=
  if String.eqb value "block"
  then setattr html_element (HtmlElement.set_display Display.block)
  else if String.eqb value "none"
  then setattr html_element (HtmlElement.set_display Display.none)
  else setattr html_element (HtmlElement.set_display Display.inline).

Definition _attr_margin_top (value : string) (html_element : loc)
  : M HtmlElement.t unit :=
  em <- lift (_get_em value) ;;
  setattr html_element (HtmlElement.set_margin_before em).

Definition _attr_margin_bottom (value : string) (html_element : loc)
  : M HtmlElement.t unit :=
  em <- lift (_get_em value) ;;
  setattr html_element (HtmlElement.set_margin_after em).

Definition _attr_padding_left (value : string) (html_element : loc)
  : M HtmlElement.t unit :=
  em <- lift (_get_em value) ;;
  setattr html_element (HtmlElement.set_padding em).

(** register aliases *)
Definition _attr_margin_before := _attr_margin_top.
Definition _attr_margin_after := _attr_margin_bottom.
Definition _attr_padding_start := _attr_padding_left.

(** [getattr(CssParse, name)] for the names the resolver asks for, which
    all start with [_attr_]: the class has these seven attributes of
    that form, and no other. *)
Definition getattr_CssParse (name : string)
  : M HtmlElement.t (string -> loc -> M HtmlElement.t unit) :=
  if String.eqb name "_attr_display" then ret _attr_display
  else if String.eqb name "_attr_margin_top" then ret _attr_margin_top
  else if String.eqb name "_attr_margin_bottom" then ret _attr_margin_bottom
  else if String.eqb name "_attr_padding_left" then ret _attr_padding_left
  else if String.eqb name "_attr_margin_before" then ret _attr_margin_before
  else if String.eqb name "_attr_margin_after" then ret _attr_margin_after
  else if String.eqb name "_attr_padding_start" then ret _attr_padding_start
  else raise AttributeError.

Definition get_style_attribute (style_attribute : string) (html_element : loc)
  : M HtmlElement.t loc :=
  custome_html_element <- HtmlElement.clone html_element ;;
  for_each (split ";" (lower style_attribute)) (fun style_directive =>
    if negb (contains ":" style_directive) then ret tt
    else
      match map strip (split1 ":" style_directive) with
      | [key; value] =>
          try_except_pass AttributeError
            (apply_style <- getattr_CssParse
                              ("_attr_" ++ replace "-" "_"
                                             (replace "-webkit-" EmptyString key)) ;;
             apply_style value custome_html_element)
      | _ => raise ValueError
      end) ;;;
  ret custome_html_element.

End CssParse.

(* ===================================================================== *)
(** * DEFAULT_CSS *)
(* ===================================================================== *)

Module Defaults.

Import Py Store.

(** A dict display: the items are evaluated and inserted from left to
    right. *)
Fixpoint dict_of {O} (items : list (string * M O loc)) (d : gmap string loc)
  : M O (gmap string loc) :=
  match items with
  | [] => ret d
  | (k, c) :: items' => v <- c ;; dict_of items' (<[k := v]> d)
  end.

(** The calls of the table, the arguments they leave out filled in from
    the defaults of [__init__]. *)
Definition elem (tag : string) (display : Display.t)
    (margin_before margin_after padding : Z) : M HtmlElement.t loc :=
  HtmlElement.__init__ tag EmptyString EmptyString display
    margin_before margin_after padding WhiteSpace.normal.

Definition dquote : string := String (ascii_of_nat 34) EmptyString.

Definition DEFAULT_CSS_items : list (string * M HtmlElement.t loc) :=
  [ ("head", elem "head" Display.none 0 0 0);
    ("link", elem "link" Display.none 0 0 0);
    ("meta", elem "meta" Display.none 0 0 0);
    ("script", elem "script" Display.none 0 0 0);
    ("title", elem "title" Display.none 0 0 0);
    ("style", elem "style" Display.none 0 0 0);

    ("p", elem "p" Display.block 1 1 0);
    ("figure", elem "figure" Display.block 1 1 0);

    ("h1", elem "h1" Display.block 1 1 0);
    ("h2", elem "h2" Display.block 1 1 0);
    ("h3", elem "h3" Display.block 1 1 0);
    ("h4", elem "h4" Display.block 1 1 0);
    ("h5", elem "h5" Display.block 1 1 0);
    ("h6", elem "h6" Display.block 1 1 0);

    ("ul", elem "ul" Display.block 0 0 4);
    ("ol", elem "ol" Display.block 0 0 4);
    ("li", elem "li" Display.block 0 0 0);

    ("address", elem "address" Display.block 0 0 0);
    ("article", elem "article" Display.block 0 0 0);
    ("aside", elem "aside" Display.block 0 0 0);
    ("div", elem "div" Display.block 0 0 0);
    ("footer", elem "footer" Display.block 0 0 0);
    ("header", elem "header" Display.block 0 0 0);
    ("hgroup", elem "hgroup" Display.block 0 0 0);
    ("layer", elem "layer" Display.block 0 0 0);
    ("main", elem "main" Display.block 0 0 0);
    ("nav", elem "nav" Display.block 0 0 0);
    ("figcaption", elem "figcaption" Display.block 0 0 0);

    ("blockquote", elem "blockquote" Display.block 0 0 0);

    ("q", HtmlElement.__init__ "q" dquote dquote Display.inline 0 0 0
            WhiteSpace.normal);
    ("span", elem "span" Display.inline 0 0 0) ].

(** The state after the module is loaded: the store holding the objects
    of the table, and the table. *)
Definition loaded : gmap loc HtmlElement.t * result (gmap string loc) :=
  dict_of DEFAULT_CSS_items ∅ ∅.

Definition store0 : gmap loc HtmlElement.t := fst loaded.

Definition DEFAULT_CSS : gmap string loc :=
  match snd loaded with
  | Ok d => d
  | Raise _ => ∅
  end.

(** [DEFAULT_CSS.get(tag)] read through to the record of the object, in
    the store [h]; [None] for a tag without entry. *)
Definition get (h : gmap loc HtmlElement.t) (tag : string)
  : option HtmlElement.t :=
  match DEFAULT_CSS !! tag with
  | Some l => h !! l
  | None => None
  end.

End Defaults.

(* ===================================================================== *)
(** * Reference definitions *)
(* ===================================================================== *)

(** ** The number and unit of a length, by enumeration *)

Module Ref.

Import Py.

Fixpoint all (c : ascii -> bool) (s : string) : bool :=
  match s with
  | EmptyString => true
  | String a s' => c a && all c s'
  end.

Definition starts_in (c : ascii -> bool) (s : string) : bool :=
  match s with
  | EmptyString => false
  | String a _ => c a
  end.

(** The longest prefix of [s] in the class [c]. *)
Fixpoint run (c : ascii -> bool) (s : string) : string :=
  match s with
  | EmptyString => EmptyString
  | String a s' => if c a then String a (run c s') else EmptyString
  end.

Fixpoint drop (n : nat) (s : string) : string :=
  match n, s with
  | S n', String _ s' => drop n' s'
  | _, _ => s
  end.

(** The suffixes of [s], from [s] itself to the empty one: the places a
    match can start at, leftmost first. *)
Fixpoint suffixes (s : string) : list string :=
  s :: match s with
       | EmptyString => []
       | String _ s' => suffixes s'
       end.

Definition cons_fst (a : ascii) (p : string * string) : string * string :=
  (String a (fst p), snd p).

(** The ways of cutting [s] into a non-empty head and a tail, shortest
    head first. *)
Fixpoint cuts (s : string) : list (string * string) :=
  match s with
  | EmptyString => []
  | String a s' => (String a EmptyString, s') :: map (cons_fst a) (cuts s')
  end.

(** The first element of [l] on which [f] gives a result. *)
Fixpoint first_some {A B} (f : A -> option B) (l : list A) : option B :=
  match l with
  | [] => None
  | x :: l' =>
      match f x with
      | Some y => Some y
      | None => first_some f l'
      end
  end.

(** The number and the unit as [RE_UNIT] finds them: at the leftmost
    start that allows it, the longest run of '-', '.' and digits that a
    word character follows; the unit is the run of word characters
    after it, never empty. *)
Definition number_unit_at (t : string) : option (string * string) :=
  first_some
    (fun p => if all CssParse.num (fst p) && starts_in Re.word (snd p)
              then Some (fst p, run Re.word (snd p)) else None)
    (rev (cuts t)).

Definition number_unit (s : string) : option (string * string) :=
  first_some number_unit_at (suffixes s).

(** A number and a unit as the groups of a match. *)
Definition groups (m : option (string * string)) : option (list string) :=
  option_map (fun nu => [fst nu; snd nu]) m.

(** The conversion of a number text and its unit. *)
Definition convert (number unit : string) : result Z :=
  let* value := float number in
  if String.eqb unit "em" || String.eqb unit "rem" || String.eqb unit "qem"
  then round value
  else round (div8 value).

(** Length conversion, from the number and unit above; a value that has
    none gives no result. *)
Definition get_em (length : string) : result Z :=
  match number_unit length with
  | Some (number, unit) => convert number unit
  | None => Raise AttributeError
  end.

(** The number and the unit when values without a unit count as lengths
    too: the first run of '-', '.' and digits, whole, and the word
    characters after it, if any. *)
Definition number_unit_unitless (s : string) : option (string * string) :=
  first_some
    (fun t => if starts_in CssParse.num t
              then let n := run CssParse.num t in
                   Some (n, run Re.word (drop (String.length n) t))
              else None)
    (suffixes s).

Definition get_em_unitless (length : string) : result Z :=
  match number_unit_unitless length with
  | Some (number, unit) => convert number unit
  | None => Raise AttributeError
  end.

End Ref.

(** ** The resolver on records *)

Module Sem.

Import Py.

(** The field a handler sets. *)
Inductive field := FDisplay | FMarginBefore | FMarginAfter | FPadding.

Definition normalize (key : string) : string :=
  replace "-" "_" (replace "-webkit-" EmptyString key).

Definition field_of (key : string) : option field :=
  let k := normalize key in
  if String.eqb k "display" then Some FDisplay
  else if String.eqb k "margin_top" || String.eqb k "margin_before"
  then Some FMarginBefore
  else if String.eqb k "margin_bottom" || String.eqb k "margin_after"
  then Some FMarginAfter
  else if String.eqb k "padding_left" || String.eqb k "padding_start"
  then Some FPadding
  else None.

Definition display_of (value : string) : Display.t :=
  if String.eqb value "block" then Display.block
  else if String.eqb value "none" then Display.none
  else Display.inline.

(** A length declaration sets its field to the converted length; a value
    without number and unit leaves the record as it is. *)
Definition set_length (upd : Z -> HtmlElement.t -> HtmlElement.t)
    (value : string) (o : HtmlElement.t) : result HtmlElement.t :=
  match CssParse._get_em value with
  | Ok em => Ok (upd em o)
  | Raise AttributeError => Ok o
  | Raise e => Raise e
  end.

(** The key and the value of a directive that has a ':'. *)
Definition key_value (d : string) : option (string * string) :=
  if contains ":" d then
    match split1 ":" d with
    | [k; v] => Some (strip k, strip v)
    | _ => None
    end
  else None.

(** What one directive does to the record. *)
Definition directive (d : string) (o : HtmlElement.t) : result HtmlElement.t :=
  match key_value d with
  | None => Ok o
  | Some (key, value) =>
      match field_of key with
      | None => Ok o
      | Some FDisplay => Ok (HtmlElement.set_display (display_of value) o)
      | Some FMarginBefore => set_length HtmlElement.set_margin_before value o
      | Some FMarginAfter => set_length HtmlElement.set_margin_after value o
      | Some FPadding => set_length HtmlElement.set_padding value o
      end
  end.

(** Steps taken in order on one object, up to the first that raises:
    the object reached, and the exception if there is one. *)
Fixpoint steps {A O} (step : A -> O -> result O) (xs : list A) (o : O)
  : O * option exn :=
  match xs with
  | [] => (o, None)
  | x :: xs' =>
      match step x o with
      | Ok o' => steps step xs' o'
      | Raise e => (o, Some e)
      end
  end.

(** What ends a computation: a value, or the exception raised. *)
Definition outcome {A} (a : A) (r : option exn) : result A :=
  match r with
  | None => Ok a
  | Some e => Raise e
  end.

Definition directives (ds : list string) (o : HtmlElement.t)
  : HtmlElement.t * option exn :=
  steps directive ds o.

Definition resolve (style_attribute : string) (o : HtmlElement.t)
  : HtmlElement.t * option exn :=
  directives (split ";" (lower style_attribute)) o.

(** The declarations of a style attribute: key and value of the
    directives that have a ':'. *)
Definition declarations (style_attribute : string) : list (string * string) :=
  omap key_value (split ";" (lower style_attribute)).

(** No length declared has a number that starts with '-': for the keys
    of the length handlers, the first group of the match in the value,
    if there is one. *)
Definition unsigned_length (kv : string * string) : bool :=
  match field_of (fst kv) with
  | Some FDisplay | None => true
  | Some _ =>
      match Re.search CssParse.RE_UNIT (snd kv) with
      | Some (n :: _) => negb (startswith "-" n)
      | _ => true
      end
  end.

Definition unsigned_lengths (style_attribute : string) : bool :=
  forallb unsigned_length (declarations style_attribute).

(** The numeric fields are not negative. *)
Definition nonneg (o : HtmlElement.t) : Prop :=
  0 <= HtmlElement.margin_before o /\
  0 <= HtmlElement.margin_after o /\
  0 <= HtmlElement.padding o.

End Sem.

(** ** The stores a program can reach *)

(** The store after the module is loaded and any number of resolutions,
    each of a style attribute on an object of the store. *)
Inductive reachable : gmap loc HtmlElement.t -> Prop :=
| reach_loaded : reachable Defaults.store0
| reach_resolve (h : gmap loc HtmlElement.t) (s : string) (l : loc) :
    reachable h -> is_Some (h !! l) ->
    reachable (fst (CssParse.get_style_attribute s l h)).

(** A store with one object, the element [HtmlElement()]. *)
Definition store1 : gmap loc HtmlElement.t :=
  {[ 1%positive := HtmlElement.defaults ]}.

(** ** The last declared values *)

Module Norm.

Import Py.

(** The values a style attribute leaves in the four fields it can set:
    for each field, the value of the last declaration that set it, if
    there is one. *)
Record overrides := Overrides {
  o_display : option Display.t;
  o_margin_before : option Z;
  o_margin_after : option Z;
  o_padding : option Z
}.

Definition nothing : overrides := Overrides None None None None.

Definition or_else {A} (x : option A) (d : A) : A :=
  match x with
  | Some a => a
  | None => d
  end.

(** The record [o] with the fields of [u] that are set written over. *)
Definition apply (u : overrides) (o : HtmlElement.t) : HtmlElement.t :=
  HtmlElement.Build
    (HtmlElement.tag o) (HtmlElement.prefix o) (HtmlElement.suffix o)
    (or_else (o_display u) (HtmlElement.display o))
    (or_else (o_margin_before u) (HtmlElement.margin_before o))
    (or_else (o_margin_after u) (HtmlElement.margin_after o))
    (or_else (o_padding u) (HtmlElement.padding o))
    (HtmlElement.whitespace o).

(** A length declaration writes the converted length; a value without
    number and unit writes nothing. *)
Definition declare_length (upd : Z -> overrides) (value : string)
    (u : overrides) : result overrides :=
  match CssParse._get_em value with
  | Ok em => Ok (upd em)
  | Raise AttributeError => Ok u
  | Raise e => Raise e
  end.

(** What one directive adds to the values declared so far. *)
Definition declare (d : string) (u : overrides) : result overrides :=
  match Sem.key_value d with
  | None => Ok u
  | Some (key, value) =>
      match Sem.field_of key with
      | None => Ok u
      | Some Sem.FDisplay =>
          Ok (Overrides (Some (Sem.display_of value)) (o_margin_before u)
                        (o_margin_after u) (o_padding u))
      | Some Sem.FMarginBefore =>
          declare_length
            (fun em => Overrides (o_display u) (Some em)
                                 (o_margin_after u) (o_padding u)) value u
      | Some Sem.FMarginAfter =>
          declare_length
            (fun em => Overrides (o_display u) (o_margin_before u)
                                 (Some em) (o_padding u)) value u
      | Some Sem.FPadding =>
          declare_length
            (fun em => Overrides (o_display u) (o_margin_before u)
                                 (o_margin_after u) (Some em)) value u
      end
  end.

(** The values a style attribute declares, and the exception of the
    first directive that raises, if one does. *)
Definition declared (style_attribute : string) : overrides * option exn :=
  Sem.steps declare (split ";" (lower style_attribute)) nothing.

End Norm.

(** ** What a handler may do *)

(** The result [r] of a handler called on the object [c] in the store
    [h]: a handler that raises leaves the store as it was; one that
    returns has replaced the record of [c] and nothing else, keeping
    tag, prefix, suffix and whitespace. *)
Definition handler_ok (c : loc) (h : gmap loc HtmlElement.t)
    (r : gmap loc HtmlElement.t * Py.result unit) : Prop :=
  match r with
  | (h', Py.Raise _) => h' = h
  | (h', Py.Ok _) =>
      exists o o',
        h !! c = Some o /\ h' = <[c := o']> h /\
        HtmlElement.tag o' = HtmlElement.tag o /\
        HtmlElement.prefix o' = HtmlElement.prefix o /\
        HtmlElement.suffix o' = HtmlElement.suffix o /\
        HtmlElement.whitespace o' = HtmlElement.whitespace o
  end.

(* ===================================================================== *)
(** * Properties *)
(* ===================================================================== *)

Import Py.

(** ** Strings *)

Lemma append_nil_l (t : string) : (EmptyString ++ t)%string = t.
Proof. reflexivity. Qed.

Lemma append_cons (c : ascii) (s t : string) :
  (String c s ++ t)%string = String c (s ++ t).
Proof. reflexivity. Qed.

Lemma contains_char_cons (c a : ascii) (s : string) :
  contains (String c EmptyString) (String a s)
  = Ascii.eqb c a || contains (String c EmptyString) s.
Proof. cbn [contains startswith]. now rewrite andb_true_r. Qed.

(** A string that holds the separator splits in two at most once. *)
Lemma split1_contains (c : ascii) (s : string) :
  contains (String c EmptyString) s = true ->
  exists k v, split1 c s = [k; v].
Proof.
  induction s as [|a s IH]; intros H.
  - discriminate.
  - rewrite contains_char_cons in H. cbn [split1].
    destruct (Ascii.eqb_spec a c) as [->|Hne].
    + eauto.
    + rewrite (proj2 (Ascii.eqb_neq c a)) in H by congruence.
      destruct (IH H) as (k & v & ->). eauto.
Qed.

Lemma lower_char_idem (c : ascii) : lower_char (lower_char c) = lower_char c.
Proof. destruct c as [[] [] [] [] [] [] [] []]; reflexivity. Qed.

Lemma lower_idem (s : string) : lower (lower s) = lower s.
Proof.
  induction s as [|c s IH]; cbn [lower]; [reflexivity|].
  now rewrite lower_char_idem, IH.
Qed.

Lemma lower_app (s t : string) : lower (s ++ t) = (lower s ++ lower t)%string.
Proof.
  induction s as [|c s IH]; [reflexivity|].
  rewrite append_cons. cbn [lower]. now rewrite append_cons, IH.
Qed.

Lemma split_nonempty (sep : ascii) (s : string) : split sep s <> [].
Proof.
  destruct s as [|c s]; cbn; [discriminate|].
  destruct (Ascii.eqb c sep); [discriminate|].
  destruct (split sep s); discriminate.
Qed.

Lemma split_app_sep (sep : ascii) (s t : string) :
  split sep (s ++ String sep t) = (split sep s ++ split sep t)%list.
Proof.
  induction s as [|c s IH].
  - rewrite append_nil_l. cbn [split]. now rewrite Ascii.eqb_refl.
  - rewrite append_cons. cbn [split]. rewrite IH.
    destruct (Ascii.eqb c sep); [reflexivity|].
    pose proof (split_nonempty sep s).
    destruct (split sep s); [congruence | reflexivity].
Qed.

(** Text without '-' holds no occurrence of a string that starts with
    '-', and is copied. *)
Lemma replace_from_skip_text (old new a t : string) :
  contains "-" a = false ->
  replace_from (String "-" old) new O (a ++ t)
  = (a ++ replace_from (String "-" old) new O t)%string.
Proof.
  induction a as [|c a IH]; intros Ha; [reflexivity|].
  rewrite contains_char_cons in Ha. apply orb_false_elim in Ha as [Hc Ha].
  rewrite !append_cons. cbn [replace_from startswith].
  rewrite Hc. cbn [andb]. now rewrite IH.
Qed.

(** An occurrence of '-webkit-' is taken out wherever it stands: here
    behind any text [a] without '-'. *)
Lemma replace_webkit_inside (a b : string) :
  contains "-" a = false ->
  replace "-webkit-" EmptyString (a ++ "-webkit-" ++ b)
  = (a ++ replace "-webkit-" EmptyString b)%string.
Proof.
  intros Ha. unfold replace. rewrite replace_from_skip_text by exact Ha.
  f_equal.
Qed.


(** ** Floats *)

Lemma round_int (x : spec_float) :
  (let* r := round x in Ok (int r)) = round x.
Proof. now destruct (round x). Qed.

(** Rounding the quotient keeps the sign it is given. *)
Lemma binary_round_aux_sign (sx : bool) (mx ex : Z) (lx : location) :
  match binary_round_aux prec emax sx mx ex lx with
  | S754_finite s _ _ => s = sx
  | _ => True
  end.
Proof.
  unfold binary_round_aux.
  destruct (shr_fexp prec emax mx ex lx) as [mrs e'].
  destruct (shr_fexp prec emax _ e' loc_Exact) as [mrs' e''].
  destruct (shr_m mrs'); [exact I | | exact I].
  now destruct (e'' <=? emax - prec).
Qed.

Lemma float_of_ratio_unsigned (n d : Z) : unsigned (float_of_ratio false n d).
Proof.
  unfold float_of_ratio. destruct (n =? 0); [exact I|].
  destruct (SFdiv_core_binary prec emax n 0 d 0) as [[q e] l].
  apply binary_round_aux_sign.
Qed.

Lemma div8_unsigned (x : spec_float) : unsigned x -> unsigned (div8 x).
Proof.
  destruct x as [s|s| |s m e]; cbn; try easy.
  intros ->.
  destruct (SFdiv_core_binary prec emax (Z.pos m) e 4503599627370496 (-49))
    as [[q e'] l].
  apply (binary_round_aux_sign false).
Qed.

(** A literal without a leading '-' is read as an unsigned float. *)
Lemma float_unsigned (n : string) (x : spec_float) :
  startswith "-" n = false -> float n = Ok x -> unsigned x.
Proof.
  intros Hn. unfold float.
  assert (E : match n with
              | String "-" s' => (true, s')
              | _ => (false, n)
              end = (false, n)).
  { destruct n as [|a n]; [reflexivity|]. cbn [startswith] in Hn.
    rewrite andb_true_r in Hn.
    destruct a as [[] [] [] [] [] [] [] []]; try reflexivity. discriminate. }
  rewrite E.
  destruct (read_decimal n false false 0 0) as [[mant scale]|]; [|discriminate].
  intros [= <-]. apply float_of_ratio_unsigned.
Qed.

(** [round_half_even_shift m k] is an integer nearest to [m / 2^k], and
    the even one of the two when [m / 2^k] lies half-way. *)
Lemma round_half_even_shift_nearest (m k : Z) :
  0 <= k ->
  2 * Z.abs (round_half_even_shift m k * 2 ^ k - m) <= 2 ^ k /\
  (2 * Z.abs (round_half_even_shift m k * 2 ^ k - m) = 2 ^ k ->
   Z.even (round_half_even_shift m k) = true).
Proof.
  intros Hk. unfold round_half_even_shift.
  rewrite Z.shiftr_div_pow2, !Z.shiftl_mul_pow2 by exact Hk.
  assert (Hp : 0 < 2 ^ k) by (apply Z.pow_pos_nonneg; lia).
  pose proof (Z.div_mod m (2 ^ k) ltac:(lia)) as Hdm.
  pose proof (Z.mod_pos_bound m (2 ^ k) Hp) as Hb.
  set (q := m / 2 ^ k) in *. set (r := m mod 2 ^ k) in *.
  replace (m - q * 2 ^ k) with r by lia.
  rewrite Z.mul_1_l.
  destruct (Z.compare_spec (2 * r) (2 ^ k)) as [E|L|G]; cbn zeta.
  - destruct (Z.even q) eqn:Ev.
    + split; [lia|]. intros _. exact Ev.
    + split; [lia|]. intros _. rewrite Z.add_1_r, Z.even_succ.
      now rewrite <- Z.negb_even, Ev.
  - split; lia.
  - split; lia.
Qed.

Lemma round_half_even_shift_nonneg (m k : Z) :
  0 <= m -> 0 <= round_half_even_shift m k.
Proof.
  intros Hm. unfold round_half_even_shift.
  assert (0 <= Z.shiftr m k) by now apply Z.shiftr_nonneg.
  destruct (2 * (m - Z.shiftl (Z.shiftr m k) k) ?= Z.shiftl 1 k);
    [destruct (Z.even _)| |]; lia.
Qed.

Lemma round_unsigned (x : spec_float) (z : Z) :
  unsigned x -> round x = Ok z -> 0 <= z.
Proof.
  destruct x as [s|s| |s m e]; cbn [round unsigned]; try discriminate.
  - intros _ [= <-]. lia.
  - intros -> [= <-]. destruct (0 <=? e).
    + apply Z.shiftl_nonneg. lia.
    + apply round_half_even_shift_nonneg. lia.
Qed.

(** [round] on a finite float, [m * 2^e] with its sign: the value itself
    when it is an integer, else an integer nearest to it, the even one
    on a tie. *)
Lemma round_nearest_even (s : bool) (m : positive) (e z : Z) :
  round (S754_finite s m e) = Ok z ->
  (0 <= e -> z = (if s then Z.neg m else Z.pos m) * 2 ^ e) /\
  (e < 0 ->
   2 * Z.abs (z * 2 ^ (- e) - (if s then Z.neg m else Z.pos m)) <= 2 ^ (- e) /\
   (2 * Z.abs (z * 2 ^ (- e) - (if s then Z.neg m else Z.pos m)) = 2 ^ (- e) ->
    Z.even z = true)).
Proof.
  cbn [round]. intros [= <-]. split; intros He.
  - rewrite (proj2 (Z.leb_le 0 e)) by exact He.
    rewrite Z.shiftl_mul_pow2 by exact He. destruct s; lia.
  - rewrite (proj2 (Z.leb_gt 0 e)) by exact He.
    destruct (round_half_even_shift_nearest (Z.pos m) (- e)) as [Hn Ht];
      [lia|].
    set (a := round_half_even_shift (Z.pos m) (- e)) in *.
    destruct s.
    + replace (- a * 2 ^ (- e) - Z.neg m) with (- (a * 2 ^ (- e) - Z.pos m))
        by lia.
      rewrite Z.abs_opp, Z.even_opp. split; assumption.
    + split; assumption.
Qed.

(** ** The match of RE_UNIT *)

Section FirstSome.
Context {A B : Type}.
Implicit Types (f : A -> option B) (l : list A).

Lemma first_some_app f l1 l2 :
  Ref.first_some f (l1 ++ l2)
  = match Ref.first_some f l1 with
    | Some y => Some y
    | None => Ref.first_some f l2
    end.
Proof.
  induction l1 as [|x l1 IH]; cbn; [reflexivity|].
  destruct (f x); [reflexivity | exact IH].
Qed.

Lemma first_some_ext f g l :
  (forall x, f x = g x) -> Ref.first_some f l = Ref.first_some g l.
Proof.
  intros E. induction l as [|x l IH]; cbn; [reflexivity|].
  now rewrite E, IH.
Qed.

Lemma first_some_none f l :
  (forall x, f x = None) -> Ref.first_some f l = None.
Proof.
  intros E. induction l as [|x l IH]; cbn; [reflexivity|].
  now rewrite E.
Qed.

Lemma first_some_map {C} (g : C -> A) f (l : list C) :
  Ref.first_some f (map g l) = Ref.first_some (fun x => f (g x)) l.
Proof.
  induction l as [|x l IH]; cbn; [reflexivity|].
  destruct (f (g x)); [reflexivity | exact IH].
Qed.

Lemma first_some_option_map {C} (g : B -> C) f l :
  Ref.first_some (fun x => option_map g (f x)) l
  = option_map g (Ref.first_some f l).
Proof.
  induction l as [|x l IH]; cbn; [reflexivity|].
  destruct (f x); [reflexivity | exact IH].
Qed.

Lemma first_some_elem f l (y : B) :
  Ref.first_some f l = Some y -> exists x, In x l /\ f x = Some y.
Proof.
  induction l as [|x l IH]; cbn; [discriminate|].
  destruct (f x) eqn:E.
  - intros [= <-]. eauto.
  - intros H. destruct (IH H) as (x' & ? & ?). eauto.
Qed.
End FirstSome.

Lemma rev_cuts_cons (a : ascii) (t : string) :
  rev (Ref.cuts (String a t))
  = (map (Ref.cons_fst a) (rev (Ref.cuts t)) ++ [(String a EmptyString, t)])%list.
Proof. cbn [Ref.cuts rev]. now rewrite map_rev. Qed.

(** The greedy repetition finds the longest head in the class that the
    rest of the pattern accepts the tail of. *)
Lemma plus_longest {A} (c : ascii -> bool) (k : string -> option A) (t : string) :
  Re.plus c k t
  = Ref.first_some
      (fun p => if Ref.all c (fst p)
                then option_map (pair (fst p)) (k (snd p)) else None)
      (rev (Ref.cuts t)).
Proof.
  induction t as [|a t IH]; [reflexivity|].
  rewrite rev_cuts_cons, first_some_app, first_some_map.
  cbn [Re.plus Ref.first_some Ref.cons_fst fst snd Ref.all].
  destruct (c a); cbn [andb].
  - rewrite (first_some_ext _
               (fun p => option_map (fun gr => (String a (fst gr), snd gr))
                           (if Ref.all c (fst p)
                            then option_map (pair (fst p)) (k (snd p))
                            else None))).
    2:{ intros [g r]. cbn [fst snd]. destruct (Ref.all c g); [|reflexivity].
        now destruct (k r). }
    rewrite first_some_option_map, <- IH.
    destruct (Re.plus c k t) as [[g r]|]; [reflexivity|].
    now destruct (k t).
  - now rewrite first_some_none.
Qed.

Lemma run_not_starting (c : ascii -> bool) (t : string) :
  Ref.starts_in c t = false -> Ref.run c t = EmptyString.
Proof. destruct t as [|a t]; cbn; [reflexivity | now intros ->]. Qed.

Lemma run_starting (c : ascii -> bool) (r : string) :
  Ref.starts_in c r = true -> Ref.run c r <> EmptyString.
Proof. destruct r as [|a r]; cbn; [discriminate | now intros ->]. Qed.

Lemma run_prefix (c : ascii -> bool) (r : string) :
  Ref.all c (Ref.run c r) = true /\
  exists post, r = (Ref.run c r ++ post)%string.
Proof.
  induction r as [|a r [IHa (post & IHp)]]; cbn [Ref.run].
  - split; [reflexivity | now exists EmptyString].
  - destruct (c a) eqn:E.
    + cbn [Ref.all]. rewrite E, IHa. split; [reflexivity|].
      exists post. now rewrite append_cons, <- IHp.
    + split; [reflexivity|]. now exists (String a r).
Qed.

(** The last group of a pattern takes the whole run of its class. *)
Lemma plus_last {A} (c : ascii -> bool) (x : A) (t : string) :
  Re.plus c (fun _ => Some x) t
  = if Ref.starts_in c t then Some (Ref.run c t, x) else None.
Proof.
  induction t as [|a t IH]; [reflexivity|].
  cbn [Re.plus Ref.starts_in Ref.run]. destruct (c a); [|reflexivity].
  rewrite IH. destruct (Ref.starts_in c t) eqn:E; [reflexivity|].
  now rewrite run_not_starting.
Qed.

Lemma match_here_RE_UNIT (t : string) :
  Re.match_here CssParse.RE_UNIT t = Ref.groups (Ref.number_unit_at t).
Proof.
  unfold CssParse.RE_UNIT, Ref.number_unit_at, Ref.groups.
  cbn [Re.match_here]. rewrite plus_longest.
  rewrite <- first_some_option_map.
  rewrite (first_some_ext _
             (fun p => option_map (fun gr => (fst gr, [snd gr]))
                (if Ref.all CssParse.num (fst p) && Ref.starts_in Re.word (snd p)
                 then Some (fst p, Ref.run Re.word (snd p)) else None))).
  2:{ intros [g r]. cbn [fst snd]. rewrite plus_last.
      destruct (Ref.all CssParse.num g); [|reflexivity].
      now destruct (Ref.starts_in Re.word r). }
  rewrite first_some_option_map, first_some_option_map.
  now destruct (Ref.first_some _ _) as [[n u]|].
Qed.

(** [RE_UNIT.search] finds the number and unit of the enumeration. *)
Lemma search_RE_UNIT (s : string) :
  Re.search CssParse.RE_UNIT s = Ref.groups (Ref.number_unit s).
Proof.
  unfold Ref.number_unit.
  induction s as [|a s IH]; cbn [Re.search Ref.suffixes Ref.first_some];
    rewrite match_here_RE_UNIT.
  - now destruct (Ref.number_unit_at EmptyString).
  - destruct (Ref.number_unit_at (String a s)); [reflexivity|]. exact IH.
Qed.

Lemma get_em_is_reference (length : string) :
  CssParse._get_em length = Ref.get_em length.
Proof.
  unfold CssParse._get_em, Ref.get_em. rewrite search_RE_UNIT.
  destruct (Ref.number_unit length) as [[n u]|]; [|reflexivity].
  cbn [Ref.groups option_map Re.group nth Nat.pred fst snd rbind].
  unfold Ref.convert. destruct (float n) as [v|e]; [|reflexivity].
  cbn [rbind CssParse.in_tuple existsb]. rewrite !round_int.
  destruct (String.eqb u "em"), (String.eqb u "qem"), (String.eqb u "rem");
    reflexivity.
Qed.

Lemma cuts_elem (t : string) (p : string * string) :
  In p (Ref.cuts t) -> fst p <> EmptyString /\ (fst p ++ snd p)%string = t.
Proof.
  revert p. induction t as [|a t IH]; intros p; cbn [Ref.cuts In]; [easy|].
  intros [<-|H]; [easy|].
  apply in_map_iff in H as (q & <- & Hq). destruct (IH q Hq) as [_ E].
  cbn [Ref.cons_fst fst snd]. rewrite append_cons, E. easy.
Qed.

Lemma suffixes_elem (s t : string) :
  In t (Ref.suffixes s) -> exists pre, s = (pre ++ t)%string.
Proof.
  induction s as [|a s IH]; cbn [Ref.suffixes In].
  - intros [<-|[]]. now exists EmptyString.
  - intros [<-|H]; [now exists EmptyString|].
    destruct (IH H) as (pre & ->). now exists (String a pre).
Qed.

(** The number and unit found are two adjacent pieces of the value,
    neither empty, the number in the class of [RE_UNIT] and the unit
    made of word characters. *)
Lemma number_unit_sound (s n u : string) :
  Ref.number_unit s = Some (n, u) ->
  n <> EmptyString /\ u <> EmptyString /\
  Ref.all CssParse.num n = true /\ Ref.all Re.word u = true /\
  exists pre post, s = (pre ++ n ++ u ++ post)%string.
Proof.
  intros H. apply first_some_elem in H as (t & Ht & H).
  apply first_some_elem in H as ([g r] & Hp & H).
  apply in_rev in Hp. apply cuts_elem in Hp as [Hg E].
  cbn [fst snd] in *.
  destruct (Ref.all CssParse.num g) eqn:Hall; [|discriminate].
  destruct (Ref.starts_in Re.word r) eqn:Hw; [|discriminate].
  cbn [andb] in H. injection H as <- <-.
  destruct (run_prefix Re.word r) as [Hu (post & Hr)].
  destruct (suffixes_elem s t Ht) as (pre & ->).
  repeat split; try assumption.
  - now apply run_starting.
  - exists pre, post. now rewrite <- Hr, E.
Qed.

(** A length without sign converts to an integer that is not negative. *)
Lemma get_em_unsigned (v n : string) (gs : list string) (z : Z) :
  Re.search CssParse.RE_UNIT v = Some (n :: gs) ->
  startswith "-" n = false ->
  CssParse._get_em v = Ok z -> 0 <= z.
Proof.
  intros Hs Hn. unfold CssParse._get_em. rewrite Hs.
  cbn [Re.group nth Nat.pred rbind].
  destruct (float n) as [x|e] eqn:Hx; [|discriminate].
  pose proof (float_unsigned n x Hn Hx) as Hu. cbn [rbind].
  rewrite !round_int.
  destruct (negb _); apply round_unsigned; [now apply div8_unsigned | exact Hu].
Qed.

(** ** The store *)

Section StoreFacts.
Context {O : Type}.
Implicit Types (h : gmap loc O) (l : loc) (o : O).

Lemma getattr_some {A} h l o (f : O -> A) :
  h !! l = Some o -> Store.getattr l f h = (h, Ok (f o)).
Proof. intros H. unfold Store.getattr. now rewrite H. Qed.

Lemma setattr_some h l o (upd : O -> O) :
  h !! l = Some o -> Store.setattr l upd h = (<[l := upd o]> h, Ok tt).
Proof. intros H. unfold Store.setattr. now rewrite H. Qed.

Lemma alloc_fresh h : h !! fresh (dom h) = None.
Proof. apply not_elem_of_dom, is_fresh. Qed.

(** A loop whose body acts on the one object [c] as [step] tells. *)
Lemma for_each_on_object {A} (body : A -> Store.M O unit)
    (step : A -> O -> result O) (c : loc) :
  (forall x h o, h !! c = Some o ->
     body x h = match step x o with
                | Ok o' => (<[c := o']> h, Ok tt)
                | Raise e => (h, Raise e)
                end) ->
  forall xs h o, h !! c = Some o ->
    Store.for_each xs body h
    = (<[c := fst (Sem.steps step xs o)]> h,
       Sem.outcome tt (snd (Sem.steps step xs o))).
Proof.
  intros Hbody xs. induction xs as [|x xs IH]; intros h o Ho.
  - cbn. unfold Store.ret. now rewrite insert_id.
  - cbn [Store.for_each Sem.steps]. unfold Store.bind.
    rewrite (Hbody x h o Ho).
    destruct (step x o) as [o1|e].
    + rewrite (IH (<[c := o1]> h) o1) by apply lookup_insert_eq.
      now rewrite insert_insert_eq.
    + cbn. now rewrite insert_id.
Qed.
End StoreFacts.

Lemma steps_app {A O} (step : A -> O -> result O) (xs ys : list A) (o : O) :
  Sem.steps step (xs ++ ys) o
  = match Sem.steps step xs o with
    | (o', None) => Sem.steps step ys o'
    | (o', Some e) => (o', Some e)
    end.
Proof.
  revert o. induction xs as [|x xs IH]; intros o; cbn; [reflexivity|].
  destruct (step x o); [apply IH | reflexivity].
Qed.

(** ** The resolver on the store and on records *)

Lemma clone_some (h : gmap loc HtmlElement.t) (l : loc) (o : HtmlElement.t) :
  h !! l = Some o ->
  HtmlElement.clone l h = (<[fresh (dom h) := o]> h, Ok (fresh (dom h))).
Proof.
  intros H. unfold HtmlElement.clone, Store.bind.
  rewrite !(getattr_some h l o) by exact H.
  unfold HtmlElement.__init__, Store.alloc. now destruct o.
Qed.

Lemma clone_none (h : gmap loc HtmlElement.t) (l : loc) :
  h !! l = None -> HtmlElement.clone l h = (h, Raise AttributeError).
Proof.
  intros H. unfold HtmlElement.clone, Store.bind, Store.getattr. now rewrite H.
Qed.

(** The class has a handler for a name exactly when the key selects a
    field, and the handler is the one of that field. *)
Lemma getattr_CssParse_field (key : string) (h : gmap loc HtmlElement.t) :
  CssParse.getattr_CssParse ("_attr_" ++ Sem.normalize key) h
  = match Sem.field_of key with
    | Some Sem.FDisplay => (h, Ok CssParse._attr_display)
    | Some Sem.FMarginBefore => (h, Ok CssParse._attr_margin_top)
    | Some Sem.FMarginAfter => (h, Ok CssParse._attr_margin_bottom)
    | Some Sem.FPadding => (h, Ok CssParse._attr_padding_left)
    | None => (h, Raise AttributeError)
    end.
Proof.
  unfold CssParse.getattr_CssParse, Sem.field_of.
  generalize (Sem.normalize key) as k. intros k.
  change (String.eqb ("_attr_" ++ k) "_attr_display")
    with (String.eqb k "display").
  change (String.eqb ("_attr_" ++ k) "_attr_margin_top")
    with (String.eqb k "margin_top").
  change (String.eqb ("_attr_" ++ k) "_attr_margin_bottom")
    with (String.eqb k "margin_bottom").
  change (String.eqb ("_attr_" ++ k) "_attr_padding_left")
    with (String.eqb k "padding_left").
  change (String.eqb ("_attr_" ++ k) "_attr_margin_before")
    with (String.eqb k "margin_before").
  change (String.eqb ("_attr_" ++ k) "_attr_margin_after")
    with (String.eqb k "margin_after").
  change (String.eqb ("_attr_" ++ k) "_attr_padding_start")
    with (String.eqb k "padding_start").
  destruct (String.eqb_spec k "display") as [->|_]; [reflexivity|].
  destruct (String.eqb_spec k "margin_top") as [->|_]; [reflexivity|].
  destruct (String.eqb_spec k "margin_bottom") as [->|_]; [reflexivity|].
  destruct (String.eqb_spec k "padding_left") as [->|_]; [reflexivity|].
  destruct (String.eqb_spec k "margin_before") as [->|_]; [reflexivity|].
  destruct (String.eqb_spec k "margin_after") as [->|_]; [reflexivity|].
  destruct (String.eqb_spec k "padding_start") as [->|_]; reflexivity.
Qed.

(** A length handler under the [try] of the resolver. *)
Lemma length_handler_spec (upd : Z -> HtmlElement.t -> HtmlElement.t)
    (value : string) (c : loc) (h : gmap loc HtmlElement.t) (o : HtmlElement.t) :
  h !! c = Some o ->
  Store.try_except_pass AttributeError
    (Store.bind (Store.lift (CssParse._get_em value))
                (fun em => Store.setattr c (upd em))) h
  = match Sem.set_length upd value o with
    | Ok o' => (<[c := o']> h, Ok tt)
    | Raise e => (h, Raise e)
    end.
Proof.
  intros H.
  unfold Store.try_except_pass, Store.bind, Store.lift, Sem.set_length.
  destruct (CssParse._get_em value) as [em|[]]; cbn.
  - now rewrite (setattr_some h c o).
  - now rewrite insert_id.
  - reflexivity.
  - reflexivity.
Qed.

Lemma display_handler_spec (value : string) (c : loc)
    (h : gmap loc HtmlElement.t) (o : HtmlElement.t) :
  h !! c = Some o ->
  CssParse._attr_display value c h
  = (<[c := HtmlElement.set_display (Sem.display_of value) o]> h, Ok tt).
Proof.
  intros H. unfold CssParse._attr_display, Sem.display_of.
  destruct (String.eqb value "block"); [|destruct (String.eqb value "none")];
    now rewrite (setattr_some h c o).
Qed.

(** One turn of the loop of [get_style_attribute], on the clone [c]. *)
Lemma directive_body_spec (c : loc) (d : string)
    (h : gmap loc HtmlElement.t) (o : HtmlElement.t) :
  h !! c = Some o ->
  (if negb (contains ":" d) then Store.ret tt
   else
     match map strip (split1 ":" d) with
     | [key; value] =>
         Store.try_except_pass AttributeError
           (apply_style <- CssParse.getattr_CssParse
                             ("_attr_" ++ replace "-" "_"
                                            (replace "-webkit-" EmptyString key)) ;;
            apply_style value c)
     | _ => Store.raise ValueError
     end) h
  = match Sem.directive d o with
    | Ok o' => (<[c := o']> h, Ok tt)
    | Raise e => (h, Raise e)
    end.
Proof.
  intros H. unfold Sem.directive, Sem.key_value.
  destruct (contains ":" d) eqn:Hc; cbn [negb].
  2:{ unfold Store.ret. now rewrite insert_id. }
  destruct (split1_contains ":" d Hc) as (k & v & ->). cbn [map].
  fold (Sem.normalize (strip k)).
  pose proof (getattr_CssParse_field (strip k) h) as Hg.
  destruct (Sem.field_of (strip k)) as [[]|].
  - unfold Store.try_except_pass, Store.bind at 1. rewrite Hg.
    now rewrite (display_handler_spec _ c h o H).
  - rewrite <- (length_handler_spec _ _ c h o H).
    unfold Store.try_except_pass, Store.bind at 1. now rewrite Hg.
  - rewrite <- (length_handler_spec _ _ c h o H).
    unfold Store.try_except_pass, Store.bind at 1. now rewrite Hg.
  - rewrite <- (length_handler_spec _ _ c h o H).
    unfold Store.try_except_pass, Store.bind at 1. now rewrite Hg.
  - unfold Store.try_except_pass, Store.bind. rewrite Hg. cbn.
    now rewrite insert_id.
Qed.

(** Resolution makes a clone at a fresh reference and takes the
    directives in order on it; the value is the clone, or the first
    exception a directive lets through. *)
Lemma get_style_attribute_spec (s : string) (l : loc)
    (h : gmap loc HtmlElement.t) (o : HtmlElement.t) :
  h !! l = Some o ->
  CssParse.get_style_attribute s l h
  = (<[fresh (dom h) := fst (Sem.resolve s o)]> h,
     Sem.outcome (fresh (dom h)) (snd (Sem.resolve s o))).
Proof.
  intros H. unfold CssParse.get_style_attribute.
  unfold Store.bind at 1. rewrite (clone_some h l o H).
  unfold Store.bind.
  match goal with
  | |- context [Store.for_each _ ?b] => set (body := b)
  end.
  rewrite (for_each_on_object body Sem.directive (fresh (dom h))
             (directive_body_spec (fresh (dom h))) _ _ o)
    by apply lookup_insert_eq.
  rewrite insert_insert_eq. unfold Sem.resolve, Sem.directives.
  now destruct (snd (Sem.steps Sem.directive (split ";" (lower s)) o)).
Qed.

Lemma get_style_attribute_none (s : string) (l : loc)
    (h : gmap loc HtmlElement.t) :
  h !! l = None ->
  CssParse.get_style_attribute s l h = (h, Raise AttributeError).
Proof.
  intros H. unfold CssParse.get_style_attribute, Store.bind.
  now rewrite (clone_none h l H).
Qed.

(** What a resolution that returns leaves: the baseline's store with one
    new object, the resolved record. *)
Lemma get_style_attribute_returns (s : string) (l : loc)
    (h : gmap loc HtmlElement.t) (o o' : HtmlElement.t) :
  h !! l = Some o ->
  Sem.resolve s o = (o', None) ->
  exists c, h !! c = None /\
            CssParse.get_style_attribute s l h = (<[c := o']> h, Ok c).
Proof.
  intros H E. exists (fresh (dom h)). split; [apply alloc_fresh|].
  rewrite (get_style_attribute_spec s l h o H), E. reflexivity.
Qed.

(** Every object of the store is left as it was by a resolution. *)
Lemma get_style_attribute_frame (s : string) (l l0 : loc)
    (h : gmap loc HtmlElement.t) (o0 : HtmlElement.t) :
  h !! l0 = Some o0 ->
  fst (CssParse.get_style_attribute s l h) !! l0 = Some o0.
Proof.
  intros H0. destruct (h !! l) as [o|] eqn:Hl.
  - rewrite (get_style_attribute_spec s l h o Hl). cbn [fst].
    rewrite lookup_insert_ne; [exact H0|].
    intros E. pose proof (alloc_fresh h) as Hf. rewrite E in Hf. congruence.
  - now rewrite (get_style_attribute_none s l h Hl).
Qed.

(** ** Directives *)

Lemma resolve_seq (s1 s2 : string) (o : HtmlElement.t) :
  Sem.resolve (s1 ++ String ";" s2) o
  = match Sem.resolve s1 o with
    | (o1, None) => Sem.resolve s2 o1
    | (o1, Some e) => (o1, Some e)
    end.
Proof.
  unfold Sem.resolve, Sem.directives.
  rewrite lower_app. cbn [lower].
  change (lower_char ";") with ";"%char.
  now rewrite split_app_sep, steps_app.
Qed.

(** A directive without ':', one whose key has no handler, and a length
    whose value holds no number followed by a unit leave the record as
    it is. *)
Lemma directive_ignored (d : string) (o : HtmlElement.t) :
  (contains ":" d = false -> Sem.directive d o = Ok o) /\
  (forall k v, Sem.key_value d = Some (k, v) ->
               Sem.field_of k = None -> Sem.directive d o = Ok o) /\
  (forall k v f, Sem.key_value d = Some (k, v) ->
                 Sem.field_of k = Some f -> f <> Sem.FDisplay ->
                 Re.search CssParse.RE_UNIT v = None ->
                 Sem.directive d o = Ok o).
Proof.
  unfold Sem.directive. split; [|split].
  - intros H. unfold Sem.key_value. now rewrite H.
  - intros k v -> ->. reflexivity.
  - intros k v f -> -> Hf Hs.
    assert (E : CssParse._get_em v = Raise AttributeError).
    { unfold CssParse._get_em. now rewrite Hs. }
    unfold Sem.set_length. rewrite E. now destruct f.
Qed.

Lemma set_length_nonneg (upd : Z -> HtmlElement.t -> HtmlElement.t)
    (v : string) (o o' : HtmlElement.t) :
  (forall z o, 0 <= z -> Sem.nonneg o -> Sem.nonneg (upd z o)) ->
  (match Re.search CssParse.RE_UNIT v with
   | Some (n :: _) => negb (startswith "-" n)
   | _ => true
   end = true) ->
  Sem.nonneg o -> Sem.set_length upd v o = Ok o' -> Sem.nonneg o'.
Proof.
  intros Hupd Hv Ho. unfold Sem.set_length.
  destruct (CssParse._get_em v) as [z|[]] eqn:E; try discriminate.
  - intros [= <-]. apply Hupd; [|exact Ho].
    destruct (Re.search CssParse.RE_UNIT v) as [[|n gs]|] eqn:Hs.
    + unfold CssParse._get_em in E. rewrite Hs in E. cbn in E.
      discriminate.
    + apply negb_true_iff in Hv. exact (get_em_unsigned v n gs z Hs Hv E).
    + unfold CssParse._get_em in E. rewrite Hs in E. discriminate.
  - now intros [= <-].
Qed.

Lemma directive_nonneg (d : string) (o o' : HtmlElement.t) :
  match Sem.key_value d with
  | Some kv => Sem.unsigned_length kv = true
  | None => True
  end ->
  Sem.nonneg o -> Sem.directive d o = Ok o' -> Sem.nonneg o'.
Proof.
  unfold Sem.directive.
  destruct (Sem.key_value d) as [[k v]|]; [|now intros _ Ho [= <-]].
  unfold Sem.unsigned_length. cbn [fst snd].
  destruct (Sem.field_of k) as [[]|]; intros Hv Ho.
  - intros [= <-]. exact Ho.
  - apply set_length_nonneg; try assumption.
    intros z [] Hz (? & ? & ?). now repeat split.
  - apply set_length_nonneg; try assumption.
    intros z [] Hz (? & ? & ?). now repeat split.
  - apply set_length_nonneg; try assumption.
    intros z [] Hz (? & ? & ?). now repeat split.
  - now intros [= <-].
Qed.

(** Unsigned lengths keep the numeric fields from going negative, up to
    the end or to the directive that raises. *)
Lemma directives_nonneg (ds : list string) (o : HtmlElement.t) :
  forallb Sem.unsigned_length (omap Sem.key_value ds) = true ->
  Sem.nonneg o -> Sem.nonneg (fst (Sem.directives ds o)).
Proof.
  unfold Sem.directives. revert o.
  induction ds as [|d ds IH]; intros o Hds Ho; [exact Ho|].
  cbn [Sem.steps]. cbn [omap list_omap] in Hds.
  destruct (Sem.directive d o) as [o1|e] eqn:E; [|exact Ho].
  destruct (Sem.key_value d) as [kv|] eqn:Hkv.
  - cbn [forallb] in Hds. apply andb_true_iff in Hds as [Hkvu Hds].
    apply IH; [exact Hds|].
    apply (directive_nonneg d o o1); [now rewrite Hkv | exact Ho | exact E].
  - apply IH; [exact Hds|].
    apply (directive_nonneg d o o1); [now rewrite Hkv | exact Ho | exact E].
Qed.

(** ** The table *)

Lemma reachable_keeps_loaded (h : gmap loc HtmlElement.t) :
  reachable h ->
  forall l0 o0, Defaults.store0 !! l0 = Some o0 -> h !! l0 = Some o0.
Proof.
  induction 1 as [|h s l _ IH _]; intros l0 o0 H0; [exact H0|].
  apply get_style_attribute_frame, IH, H0.
Qed.

(** The entries of the table are objects of the store of the loaded
    module. *)
Lemma DEFAULT_CSS_loaded (tag : string) (l0 : loc) :
  Defaults.DEFAULT_CSS !! tag = Some l0 -> is_Some (Defaults.store0 !! l0).
Proof.
  intros H.
  assert (Hall : map_Forall (fun _ l1 => is_Some (Defaults.store0 !! l1))
                            Defaults.DEFAULT_CSS).
  { apply (bool_decide_unpack _). vm_compute. exact I. }
  exact (Hall tag l0 H).
Qed.

(* ===================================================================== *)
(** * The claims *)
(* ===================================================================== *)

(** ** C1: what resolution raises *)

(** C1. A length whose number text [float] rejects is not ignored. The
    value '-px' has the number '-' and the unit 'px', the value
    'var(--x)' the number '--' and the unit 'x'; [float] raises
    [ValueError] on both numbers, the handler lets it through, and so
    does the resolver, which catches [AttributeError] only: resolving
    "margin-top:-px" or "margin-top:var(--x)" raises [ValueError] on
    every baseline. *)
Theorem malformed_number_raises (h : gmap loc HtmlElement.t) (l : loc)
    (o : HtmlElement.t) :
  h !! l = Some o ->
  Re.search CssParse.RE_UNIT "-px" = Some ["-"; "px"] /\
  CssParse._get_em "-px" = Raise ValueError /\
  snd (CssParse.get_style_attribute "margin-top:-px" l h) = Raise ValueError /\
  snd (CssParse.get_style_attribute "margin-top:var(--x)" l h)
  = Raise ValueError.
Proof.
  intros H. split; [reflexivity|]. split; [reflexivity|].
  rewrite !(get_style_attribute_spec _ l h o H). split; reflexivity.
Qed.

Lemma malformed_number_raises_witness :
  store1 !! 1%positive = Some HtmlElement.defaults /\
  snd (CssParse.get_style_attribute "margin-top:-px" 1%positive store1)
  = Raise ValueError.
Proof.
  split; [reflexivity|].
  apply (malformed_number_raises store1 1%positive HtmlElement.defaults).
  reflexivity.
Defined.

(** ** C2: the sign of the numeric fields *)

(** C2, as stated, fails: a negative length is kept as it is, and
    resolving "margin-top:-16px" on the element [HtmlElement()], whose
    numeric fields are 0, returns a record with [margin_before = -2]. *)
Lemma negative_length_counterexample :
  store1 !! 1%positive = Some HtmlElement.defaults /\
  Sem.nonneg HtmlElement.defaults /\
  exists h' c o',
    CssParse.get_style_attribute "margin-top:-16px" 1%positive store1
    = (h', Ok c) /\
    h' !! c = Some o' /\
    HtmlElement.margin_before o' = -2.
Proof.
  split; [reflexivity|]. split; [unfold Sem.nonneg; cbn; lia|].
  eexists _, _, (HtmlElement.set_margin_before (-2) HtmlElement.defaults).
  rewrite (get_style_attribute_spec _ 1%positive store1 HtmlElement.defaults)
    by reflexivity.
  split; [reflexivity|]. split; [|reflexivity].
  cbn [Sem.outcome]. now rewrite lookup_insert_eq.
Qed.

(** C2. The numeric fields of a resolved record are integers; they are
    not negative when those of the baseline are not and no length the
    style declares has a number that starts with '-'. Lengths are not
    clamped: on every baseline, resolving "margin-top:-16px" gives
    [margin_before = -2]. *)
Theorem unsigned_lengths_nonneg (s : string) (l : loc)
    (h : gmap loc HtmlElement.t) (o : HtmlElement.t) :
  h !! l = Some o ->
  Sem.nonneg o ->
  (Sem.unsigned_lengths s = true ->
   match CssParse.get_style_attribute s l h with
   | (h', Ok c) =>
       exists o', h' !! c = Some o' /\
                  0 <= HtmlElement.margin_before o' /\
                  0 <= HtmlElement.margin_after o' /\
                  0 <= HtmlElement.padding o'
   | (_, Raise _) => True
   end) /\
  (exists c o',
     h !! c = None /\
     CssParse.get_style_attribute "margin-top:-16px" l h
     = (<[c := o']> h, Ok c) /\
     HtmlElement.margin_before o' = -2).
Proof.
  intros H Ho. split.
  - intros Hs. rewrite (get_style_attribute_spec s l h o H).
    pose proof (directives_nonneg _ o Hs Ho) as Hn.
    fold (Sem.resolve s o) in Hn.
    destruct (Sem.resolve s o) as [o' [e|]]; cbn [Sem.outcome fst snd] in *;
      [exact I|].
    exists o'. split; [apply lookup_insert_eq | exact Hn].
  - destruct (get_style_attribute_returns "margin-top:-16px" l h o
                (HtmlElement.set_margin_before (-2) o) H) as (c & Hc & E).
    { vm_compute. reflexivity. }
    exists c, (HtmlElement.set_margin_before (-2) o). auto.
Qed.

Lemma unsigned_lengths_nonneg_witness :
  store1 !! 1%positive = Some HtmlElement.defaults /\
  Sem.nonneg HtmlElement.defaults /\
  Sem.unsigned_lengths "margin-top:16px; padding-left:3em" = true /\
  snd (CssParse.get_style_attribute "margin-top:16px; padding-left:3em"
         1%positive store1) = Ok 2%positive /\
  match CssParse.get_style_attribute "margin-top:16px; padding-left:3em"
          1%positive store1 with
  | (h', Ok c) =>
      exists o', h' !! c = Some o' /\
                 0 <= HtmlElement.margin_before o' /\
                 0 <= HtmlElement.margin_after o' /\
                 0 <= HtmlElement.padding o'
  | (_, Raise _) => True
  end /\
  exists c o',
    store1 !! c = None /\
    CssParse.get_style_attribute "margin-top:-16px" 1%positive store1
    = (<[c := o']> store1, Ok c) /\
    HtmlElement.margin_before o' = -2.
Proof.
  assert (Hn : Sem.nonneg HtmlElement.defaults)
    by (unfold Sem.nonneg; cbn; lia).
  destruct (unsigned_lengths_nonneg "margin-top:16px; padding-left:3em"
              1%positive store1 HtmlElement.defaults eq_refl Hn)
    as [Hgen Hneg].
  split; [reflexivity|]. split; [exact Hn|]. split; [reflexivity|].
  split; [reflexivity|]. split; [exact (Hgen eq_refl) | exact Hneg].
Defined.

(** ** C3: length conversion *)

(** C3, as stated, fails on a value without a unit: the claim gives
    '16' the number 16 and the result 2, the code takes the last digit
    for the unit and gives round(1/8) = 0; and on '8' the code finds no
    match at all. *)
Lemma get_em_unitless_counterexample :
  CssParse._get_em "16" = Ok 0 /\
  Ref.get_em_unitless "16" = Ok 2 /\
  CssParse._get_em "16" <> Ref.get_em_unitless "16" /\
  CssParse._get_em "8" <> Ref.get_em_unitless "8".
Proof.
  split; [reflexivity|]. split; [reflexivity|].
  split; vm_compute; discriminate.
Qed.

(** C3. Length conversion is the reference conversion of the number and
    unit that [RE_UNIT] finds: at the leftmost start that allows it, the
    longest run of '-', '.' and digits that a word character follows,
    and the run of word characters after it, which is never empty; the
    float of the number is rounded as it is for the units em, rem and
    qem, and divided by 8 and rounded for any other unit, to a nearest
    integer. A value with no such number and unit gives no result. *)
Theorem get_em_reference :
  (forall length, CssParse._get_em length = Ref.get_em length) /\
  (forall s,
     match Ref.number_unit s with
     | Some (n, u) =>
         n <> EmptyString /\ u <> EmptyString /\
         Ref.all CssParse.num n = true /\ Ref.all Re.word u = true /\
         exists pre post, s = (pre ++ n ++ u ++ post)%string
     | None => CssParse._get_em s = Raise AttributeError
     end) /\
  (forall s m e z,
     round (S754_finite s m e) = Ok z ->
     (0 <= e -> z = (if s then Z.neg m else Z.pos m) * 2 ^ e) /\
     (e < 0 ->
      2 * Z.abs (z * 2 ^ (- e) - (if s then Z.neg m else Z.pos m))
      <= 2 ^ (- e) /\
      (2 * Z.abs (z * 2 ^ (- e) - (if s then Z.neg m else Z.pos m))
       = 2 ^ (- e) -> Z.even z = true))) /\
  CssParse._get_em "16px" = Ok 2 /\
  CssParse._get_em "3em" = Ok 3.
Proof.
  split; [exact get_em_is_reference|]. split; [|split].
  - intros s. destruct (Ref.number_unit s) as [[n u]|] eqn:E.
    + now apply number_unit_sound.
    + rewrite get_em_is_reference. unfold Ref.get_em. now rewrite E.
  - exact round_nearest_even.
  - split; vm_compute; reflexivity.
Qed.

(** The float 2.5 is [5629499534213120 * 2^-51]; it rounds to 2, at
    distance one half, and 2 is even. *)
Lemma get_em_reference_witness :
  round (S754_finite false 5629499534213120 (-51)) = Ok 2 /\
  -51 < 0 /\
  2 * Z.abs (2 * 2 ^ 51 - 5629499534213120) <= 2 ^ 51 /\
  Z.even 2 = true.
Proof.
  split; [reflexivity|]. split; [lia|].
  destruct (proj1 (proj2 (proj2 get_em_reference))
              false 5629499534213120%positive (-51) 2 eq_refl) as [_ Hn].
  destruct (Hn ltac:(lia)) as [Hd Ht].
  split; [exact Hd | apply Ht; reflexivity].
Defined.

(** ** C4: the baseline and the table *)

(** C4. Resolution does not mutate its baseline: after the call, also
    one that raises, the baseline and every other object the store held
    are as before; so in every store reached from the loaded module by
    resolutions, [DEFAULT_CSS] gives for a tag the record it gave when
    the module was loaded. *)
Theorem resolution_keeps_baseline (s : string) (l : loc)
    (h : gmap loc HtmlElement.t) (o : HtmlElement.t) :
  h !! l = Some o ->
  fst (CssParse.get_style_attribute s l h) !! l = Some o /\
  (forall l0 o0, h !! l0 = Some o0 ->
     fst (CssParse.get_style_attribute s l h) !! l0 = Some o0) /\
  (reachable h ->
   forall tag,
     Defaults.get (fst (CssParse.get_style_attribute s l h)) tag
     = Defaults.get Defaults.store0 tag).
Proof.
  intros H. split; [|split].
  - apply get_style_attribute_frame, H.
  - intros l0 o0. apply get_style_attribute_frame.
  - intros Hr tag. unfold Defaults.get.
    destruct (Defaults.DEFAULT_CSS !! tag) as [l0|] eqn:Ht; [|reflexivity].
    destruct (DEFAULT_CSS_loaded tag l0 Ht) as [o0 H0].
    rewrite H0. apply get_style_attribute_frame.
    apply (reachable_keeps_loaded h Hr), H0.
Qed.

Lemma resolution_keeps_baseline_witness :
  Defaults.get Defaults.store0 "p"
  = Some (HtmlElement.Build "p" EmptyString EmptyString Display.block
            1 1 0 WhiteSpace.normal) /\
  Defaults.DEFAULT_CSS !! "p" = Some 7%positive /\
  reachable Defaults.store0 /\
  snd (CssParse.get_style_attribute "margin-top:5em; display:none"
         7%positive Defaults.store0) = Ok 32%positive /\
  fst (CssParse.get_style_attribute "margin-top:5em; display:none"
         7%positive Defaults.store0) !! 7%positive
  = Defaults.store0 !! 7%positive /\
  Defaults.get
    (fst (CssParse.get_style_attribute "margin-top:5em; display:none"
            7%positive Defaults.store0)) "p"
  = Defaults.get Defaults.store0 "p".
Proof.
  split; [reflexivity|]. split; [reflexivity|].
  split; [exact reach_loaded|]. split; [reflexivity|].
  pose proof
    (resolution_keeps_baseline "margin-top:5em; display:none"
       7%positive Defaults.store0
       (HtmlElement.Build "p" EmptyString EmptyString Display.block
          1 1 0 WhiteSpace.normal)
       eq_refl) as (Hb & _ & Ht).
  split; [exact Hb | exact (Ht reach_loaded "p")].
Defined.

(** ** C5: the empty style attribute *)

(** C5. Resolving the empty style attribute returns a new object whose
    record equals the baseline's, field for field, and so does
    [HtmlElement.clone]: both leave the store with one object more, at a
    reference that held nothing, carrying the record of the source. *)
Theorem resolve_empty_is_clone (h : gmap loc HtmlElement.t) (l : loc)
    (o : HtmlElement.t) :
  h !! l = Some o ->
  exists c,
    h !! c = None /\
    CssParse.get_style_attribute EmptyString l h = (<[c := o]> h, Ok c) /\
    HtmlElement.clone l h = (<[c := o]> h, Ok c).
Proof.
  intros H. exists (fresh (dom h)).
  split; [apply alloc_fresh|]. split.
  - rewrite (get_style_attribute_spec _ l h o H). reflexivity.
  - apply clone_some, H.
Qed.

Lemma resolve_empty_is_clone_witness :
  store1 !! 1%positive = Some HtmlElement.defaults /\
  exists c,
    store1 !! c = None /\
    CssParse.get_style_attribute EmptyString 1%positive store1
    = (<[c := HtmlElement.defaults]> store1, Ok c) /\
    HtmlElement.clone 1%positive store1
    = (<[c := HtmlElement.defaults]> store1, Ok c).
Proof.
  split; [reflexivity|].
  apply (resolve_empty_is_clone store1 1%positive HtmlElement.defaults).
  reflexivity.
Defined.

(** ** C6: the order of the declarations *)

(** C6. Declarations are applied from left to right: resolving
    [s1;s2] gives the record, and the outcome, of resolving [s2] on the
    object that resolving [s1] returned; so a later declaration of a
    property overwrites an earlier one, and resolving
    "margin-top:1em;margin-top:2em" gives [margin_before = 2] on every
    baseline. *)
Theorem declarations_in_order (h : gmap loc HtmlElement.t) (l : loc)
    (o : HtmlElement.t) :
  h !! l = Some o ->
  (exists c o',
     h !! c = None /\
     CssParse.get_style_attribute "margin-top:1em;margin-top:2em" l h
     = (<[c := o']> h, Ok c) /\
     HtmlElement.margin_before o' = 2) /\
  (forall s1 s2 h1 c1,
     CssParse.get_style_attribute s1 l h = (h1, Ok c1) ->
     exists o' r,
       CssParse.get_style_attribute (s1 ++ String ";" s2) l h
       = (<[fresh (dom h) := o']> h, Sem.outcome (fresh (dom h)) r) /\
       CssParse.get_style_attribute s2 c1 h1
       = (<[fresh (dom h1) := o']> h1, Sem.outcome (fresh (dom h1)) r)).
Proof.
  intros H. split.
  - destruct (get_style_attribute_returns
                "margin-top:1em;margin-top:2em" l h o
                (HtmlElement.set_margin_before 2 o) H) as (c & Hc & E).
    { vm_compute. reflexivity. }
    exists c, (HtmlElement.set_margin_before 2 o). auto.
  - intros s1 s2 h1 c1 E1.
    rewrite (get_style_attribute_spec s1 l h o H) in E1.
    destruct (Sem.resolve s1 o) as [o1 [e|]] eqn:R1; [discriminate|].
    cbn in E1. injection E1 as <- <-.
    exists (fst (Sem.resolve s2 o1)), (snd (Sem.resolve s2 o1)). split.
    + rewrite (get_style_attribute_spec _ l h o H), resolve_seq, R1.
      reflexivity.
    + apply get_style_attribute_spec, lookup_insert_eq.
Qed.

Lemma declarations_in_order_witness :
  store1 !! 1%positive = Some HtmlElement.defaults /\
  (exists c o',
     store1 !! c = None /\
     CssParse.get_style_attribute "margin-top:1em;margin-top:2em"
       1%positive store1
     = (<[c := o']> store1, Ok c) /\
     HtmlElement.margin_before o' = 2) /\
  CssParse.get_style_attribute "margin-top:1em" 1%positive store1
  = (<[2%positive := HtmlElement.set_margin_before 1 HtmlElement.defaults]>
       store1, Ok 2%positive) /\
  exists o' r,
    CssParse.get_style_attribute "margin-top:1em;margin-top:2em"
      1%positive store1
    = (<[fresh (dom store1) := o']> store1,
       Sem.outcome (fresh (dom store1)) r) /\
    CssParse.get_style_attribute "margin-top:2em" 2%positive
      (<[2%positive := HtmlElement.set_margin_before 1 HtmlElement.defaults]>
         store1)
    = (<[fresh (dom (<[2%positive :=
                         HtmlElement.set_margin_before 1 HtmlElement.defaults]>
                       store1)) := o']>
         (<[2%positive := HtmlElement.set_margin_before 1 HtmlElement.defaults]>
            store1),
       Sem.outcome
         (fresh (dom (<[2%positive :=
                          HtmlElement.set_margin_before 1 HtmlElement.defaults]>
                        store1))) r).
Proof.
  assert (E1 : CssParse.get_style_attribute "margin-top:1em" 1%positive store1
               = (<[2%positive :=
                      HtmlElement.set_margin_before 1 HtmlElement.defaults]>
                    store1, Ok 2%positive))
    by (vm_compute; reflexivity).
  destruct (declarations_in_order store1 1%positive HtmlElement.defaults
              eq_refl) as [Hfirst Hseq].
  split; [reflexivity|]. split; [exact Hfirst|]. split; [exact E1|].
  exact (Hseq "margin-top:1em" "margin-top:2em" _ _ E1).
Defined.

(** ** C7: the display handler *)

(** C7. The display handler sets [display] to block on the value
    'block', to none on 'none' and to inline on every other value; so
    resolving "display:inline-block" gives [display = inline] on every
    baseline. *)
Theorem display_falls_back_to_inline (h : gmap loc HtmlElement.t) (l : loc)
    (o : HtmlElement.t) :
  h !! l = Some o ->
  (forall value,
     exists d,
       CssParse._attr_display value l h
       = (<[l := HtmlElement.set_display d o]> h, Ok tt) /\
       (value = "block" -> d = Display.block) /\
       (value = "none" -> d = Display.none) /\
       (value <> "block" -> value <> "none" -> d = Display.inline)) /\
  (exists c o',
     h !! c = None /\
     CssParse.get_style_attribute "display:inline-block" l h
     = (<[c := o']> h, Ok c) /\
     HtmlElement.display o' = Display.inline).
Proof.
  intros H. split.
  - intros value. exists (Sem.display_of value).
    split; [apply display_handler_spec, H|].
    unfold Sem.display_of.
    destruct (String.eqb_spec value "block") as [->|Hb]; [easy|].
    destruct (String.eqb_spec value "none") as [->|Hn]; easy.
  - destruct (get_style_attribute_returns "display:inline-block" l h o
                (HtmlElement.set_display Display.inline o) H) as (c & Hc & E).
    { vm_compute. reflexivity. }
    exists c, (HtmlElement.set_display Display.inline o). auto.
Qed.

Lemma display_falls_back_to_inline_witness :
  store1 !! 1%positive = Some HtmlElement.defaults /\
  (exists d,
     CssParse._attr_display "inline-block" 1%positive store1
     = (<[1%positive := HtmlElement.set_display d HtmlElement.defaults]>
          store1, Ok tt) /\
     d = Display.inline) /\
  exists c o',
    store1 !! c = None /\
    CssParse.get_style_attribute "display:inline-block" 1%positive store1
    = (<[c := o']> store1, Ok c) /\
    HtmlElement.display o' = Display.inline.
Proof.
  destruct (display_falls_back_to_inline store1 1%positive
              HtmlElement.defaults eq_refl) as [Hh Hr].
  split; [reflexivity|]. split; [|exact Hr].
  destruct (Hh "inline-block") as (d & E & _ & _ & Hd).
  exists d. split; [exact E|]. apply Hd; discriminate.
Defined.

(** ** C8: vendor prefix and aliases *)



(** ** C9: letter case *)

(** C9. The style attribute is lower-cased as a whole before it is
    split, so a style attribute and its lower-cased form resolve alike,
    keys and values; and resolving "DISPLAY: NONE" gives
    [display = none] on every baseline. *)
Theorem style_is_case_insensitive (h : gmap loc HtmlElement.t) (l : loc)
    (o : HtmlElement.t) :
  h !! l = Some o ->
  (forall s,
     CssParse.get_style_attribute s l h
     = CssParse.get_style_attribute (lower s) l h) /\
  (exists c o',
     h !! c = None /\
     CssParse.get_style_attribute "DISPLAY: NONE" l h = (<[c := o']> h, Ok c) /\
     HtmlElement.display o' = Display.none).
Proof.
  intros H. split.
  - intros s. unfold CssParse.get_style_attribute. now rewrite lower_idem.
  - destruct (get_style_attribute_returns "DISPLAY: NONE" l h o
                (HtmlElement.set_display Display.none o) H) as (c & Hc & E).
    { vm_compute. reflexivity. }
    exists c, (HtmlElement.set_display Display.none o). auto.
Qed.

Lemma style_is_case_insensitive_witness :
  store1 !! 1%positive = Some HtmlElement.defaults /\
  exists c o',
    store1 !! c = None /\
    CssParse.get_style_attribute "DISPLAY: NONE" 1%positive store1
    = (<[c := o']> store1, Ok c) /\
    HtmlElement.display o' = Display.none.
Proof.
  split; [reflexivity|].
  apply (style_is_case_insensitive store1 1%positive HtmlElement.defaults).
  reflexivity.
Defined.

(** ** C10: ties *)

(** C10. Length conversion rounds a tie to the even neighbour: 4px is
    0.5 em and gives 0, 12px is 1.5 em and gives 2, 2.5em gives 2 and
    3.5em gives 4. *)
Theorem get_em_rounds_half_to_even :
  CssParse._get_em "4px" = Ok 0 /\
  CssParse._get_em "12px" = Ok 2 /\
  CssParse._get_em "2.5em" = Ok 2 /\
  CssParse._get_em "3.5em" = Ok 4.
Proof. repeat split; vm_compute; reflexivity. Qed.

(* ===================================================================== *)
(** * Further properties of the resolver *)
(* ===================================================================== *)

(** ** The resolved record as the last declared values *)

Lemma apply_nothing (o : HtmlElement.t) : Norm.apply Norm.nothing o = o.
Proof. now destruct o. Qed.

Lemma apply_twice (u : Norm.overrides) (o : HtmlElement.t) :
  Norm.apply u (Norm.apply u o) = Norm.apply u o.
Proof.
  destruct u as [[d|] [b|] [a|] [p|]]; reflexivity.
Qed.

Lemma directive_apply (d : string) (u : Norm.overrides) (o : HtmlElement.t) :
  Sem.directive d (Norm.apply u o)
  = match Norm.declare d u with
    | Ok u' => Ok (Norm.apply u' o)
    | Raise e => Raise e
    end.
Proof.
  unfold Sem.directive, Norm.declare.
  destruct (Sem.key_value d) as [[k v]|]; [|reflexivity].
  destruct (Sem.field_of k) as [[]|]; try reflexivity;
    unfold Sem.set_length, Norm.declare_length;
    destruct (CssParse._get_em v) as [z|[]]; reflexivity.
Qed.

Lemma steps_apply (ds : list string) (u : Norm.overrides) (o : HtmlElement.t) :
  Sem.steps Sem.directive ds (Norm.apply u o)
  = (Norm.apply (fst (Sem.steps Norm.declare ds u)) o,
     snd (Sem.steps Norm.declare ds u)).
Proof.
  revert u. induction ds as [|d ds IH]; intros u; [reflexivity|].
  cbn [Sem.steps]. rewrite directive_apply.
  destruct (Norm.declare d u) as [u'|e]; [apply IH | reflexivity].
Qed.

Lemma resolve_declared (s : string) (o : HtmlElement.t) :
  Sem.resolve s o
  = (Norm.apply (fst (Norm.declared s)) o, snd (Norm.declared s)).
Proof.
  unfold Sem.resolve, Sem.directives, Norm.declared.
  rewrite <- steps_apply. now rewrite apply_nothing.
Qed.

(** When [declared] ends without exception in [u], the style resolves
    every record [o] to [apply u o]. *)
Lemma resolve_returns_declared (s : string) (o o' : HtmlElement.t) :
  Sem.resolve s o = (o', None) ->
  o' = Norm.apply (fst (Norm.declared s)) o /\ snd (Norm.declared s) = None.
Proof.
  rewrite resolve_declared. intros [= <- E]. split; [reflexivity | exact E].
Qed.

(** What a call that returns tells about the record-level resolution. *)
Lemma get_style_attribute_ok (s : string) (l c : loc)
    (h h' : gmap loc HtmlElement.t) (o : HtmlElement.t) :
  h !! l = Some o ->
  CssParse.get_style_attribute s l h = (h', Ok c) ->
  c = fresh (dom h) /\
  h' = <[c := fst (Sem.resolve s o)]> h /\
  snd (Sem.resolve s o) = None.
Proof.
  intros H E. rewrite (get_style_attribute_spec s l h o H) in E.
  destruct (snd (Sem.resolve s o)); [discriminate|].
  cbn in E. injection E as <- <-. auto.
Qed.

(** Resolution in terms of the last declared values. *)
Lemma get_style_attribute_declared (s : string) (l : loc)
    (h : gmap loc HtmlElement.t) (o : HtmlElement.t) :
  h !! l = Some o ->
  CssParse.get_style_attribute s l h
  = (<[fresh (dom h) := Norm.apply (fst (Norm.declared s)) o]> h,
     Sem.outcome (fresh (dom h)) (snd (Norm.declared s))).
Proof.
  intros H. rewrite (get_style_attribute_spec s l h o H).
  now rewrite resolve_declared.
Qed.

(** X1. The record a resolution returns is the baseline with each of
    display, margin_before, margin_after and padding replaced by the
    value of the last declaration that set it, and the other fields
    kept; which values are declared, and whether a directive raises,
    depends on the style attribute alone. *)
Theorem resolution_is_last_declared (s : string) (l : loc)
    (h : gmap loc HtmlElement.t) (o : HtmlElement.t) :
  h !! l = Some o ->
  CssParse.get_style_attribute s l h
  = (<[fresh (dom h) := Norm.apply (fst (Norm.declared s)) o]> h,
     Sem.outcome (fresh (dom h)) (snd (Norm.declared s))).
Proof. exact (get_style_attribute_declared s l h o). Qed.

Lemma resolution_is_last_declared_witness :
  store1 !! 1%positive = Some HtmlElement.defaults /\
  Norm.declared "margin-top:1em; display:block; margin-top:16px; color:red"
  = (Norm.Overrides (Some Display.block) (Some 2) None None, None) /\
  CssParse.get_style_attribute
    "margin-top:1em; display:block; margin-top:16px; color:red"
    1%positive store1
  = (<[fresh (dom store1) :=
         Norm.apply
           (fst (Norm.declared
                   "margin-top:1em; display:block; margin-top:16px; color:red"))
           HtmlElement.defaults]> store1,
     Sem.outcome (fresh (dom store1))
       (snd (Norm.declared
               "margin-top:1em; display:block; margin-top:16px; color:red"))).
Proof.
  split; [reflexivity|]. split; [vm_compute; reflexivity|].
  apply (resolution_is_last_declared _ 1%positive store1 HtmlElement.defaults).
  reflexivity.
Defined.

(** X2. Resolution is idempotent: resolving a style attribute on the
    object that resolving the same style attribute returned gives a new
    object with the same record. *)
Theorem resolution_idempotent (s : string) (l c1 : loc)
    (h h1 : gmap loc HtmlElement.t) (o : HtmlElement.t) :
  h !! l = Some o ->
  CssParse.get_style_attribute s l h = (h1, Ok c1) ->
  exists o1 c2,
    h1 !! c1 = Some o1 /\
    h1 !! c2 = None /\
    CssParse.get_style_attribute s c1 h1 = (<[c2 := o1]> h1, Ok c2).
Proof.
  intros H E.
  destruct (get_style_attribute_ok s l c1 h h1 o H E) as (-> & -> & R).
  destruct (Sem.resolve s o) as [o1 r] eqn:E1. cbn [fst snd] in *. subst r.
  destruct (resolve_returns_declared s o o1 E1) as [-> Hd].
  exists (Norm.apply (fst (Norm.declared s)) o).
  apply (ex_intro _ (fresh (dom (<[fresh (dom h) :=
                                    Norm.apply (fst (Norm.declared s)) o]> h)))).
  split; [apply lookup_insert_eq|]. split; [apply alloc_fresh|].
  rewrite (get_style_attribute_declared s _ _
             (Norm.apply (fst (Norm.declared s)) o))
    by apply lookup_insert_eq.
  now rewrite apply_twice, Hd.
Qed.

Lemma resolution_idempotent_witness :
  store1 !! 1%positive = Some HtmlElement.defaults /\
  CssParse.get_style_attribute "padding-left:16px; display:none"
    1%positive store1
  = (<[2%positive :=
         HtmlElement.set_display Display.none
           (HtmlElement.set_padding 2 HtmlElement.defaults)]> store1,
     Ok 2%positive) /\
  exists o1 c2,
    (<[2%positive :=
         HtmlElement.set_display Display.none
           (HtmlElement.set_padding 2 HtmlElement.defaults)]> store1)
      !! 2%positive = Some o1 /\
    (<[2%positive :=
         HtmlElement.set_display Display.none
           (HtmlElement.set_padding 2 HtmlElement.defaults)]> store1)
      !! c2 = None /\
    CssParse.get_style_attribute "padding-left:16px; display:none" 2%positive
      (<[2%positive :=
           HtmlElement.set_display Display.none
             (HtmlElement.set_padding 2 HtmlElement.defaults)]> store1)
    = (<[c2 := o1]>
         (<[2%positive :=
              HtmlElement.set_display Display.none
                (HtmlElement.set_padding 2 HtmlElement.defaults)]> store1),
       Ok c2).
Proof.
  assert (E : CssParse.get_style_attribute "padding-left:16px; display:none"
                1%positive store1
              = (<[2%positive :=
                     HtmlElement.set_display Display.none
                       (HtmlElement.set_padding 2 HtmlElement.defaults)]>
                   store1, Ok 2%positive))
    by (vm_compute; reflexivity).
  split; [reflexivity|]. split; [exact E|].
  exact (resolution_idempotent _ 1%positive 2%positive store1 _
           HtmlElement.defaults eq_refl E).
Defined.

(** X3. What a style attribute does is the same on every baseline: two
    resolutions of one style attribute raise the same exception or both
    return, and each of display, margin_before, margin_after and
    padding is then either equal in the two results or, in both, the
    baseline's own. *)
Theorem resolution_independent_of_baseline (s : string) (l1 l2 : loc)
    (h1 h2 : gmap loc HtmlElement.t) (o1 o2 : HtmlElement.t) :
  h1 !! l1 = Some o1 ->
  h2 !! l2 = Some o2 ->
  (forall e,
     snd (CssParse.get_style_attribute s l1 h1) = Raise e <->
     snd (CssParse.get_style_attribute s l2 h2) = Raise e) /\
  (forall x1 c1 x2 c2,
     CssParse.get_style_attribute s l1 h1 = (x1, Ok c1) ->
     CssParse.get_style_attribute s l2 h2 = (x2, Ok c2) ->
     exists r1 r2,
       x1 !! c1 = Some r1 /\ x2 !! c2 = Some r2 /\
       (HtmlElement.display r1 = HtmlElement.display r2 \/
        HtmlElement.display r1 = HtmlElement.display o1 /\
        HtmlElement.display r2 = HtmlElement.display o2) /\
       (HtmlElement.margin_before r1 = HtmlElement.margin_before r2 \/
        HtmlElement.margin_before r1 = HtmlElement.margin_before o1 /\
        HtmlElement.margin_before r2 = HtmlElement.margin_before o2) /\
       (HtmlElement.margin_after r1 = HtmlElement.margin_after r2 \/
        HtmlElement.margin_after r1 = HtmlElement.margin_after o1 /\
        HtmlElement.margin_after r2 = HtmlElement.margin_after o2) /\
       (HtmlElement.padding r1 = HtmlElement.padding r2 \/
        HtmlElement.padding r1 = HtmlElement.padding o1 /\
        HtmlElement.padding r2 = HtmlElement.padding o2)).
Proof.
  intros H1 H2.
  rewrite (get_style_attribute_declared s l1 h1 o1 H1).
  rewrite (get_style_attribute_declared s l2 h2 o2 H2).
  cbn [snd]. split.
  - intros e. now destruct (snd (Norm.declared s)).
  - intros x1 c1 x2 c2 E1 E2.
    destruct (snd (Norm.declared s)); [discriminate|].
    cbn in E1, E2. injection E1 as <- <-. injection E2 as <- <-.
    exists (Norm.apply (fst (Norm.declared s)) o1),
           (Norm.apply (fst (Norm.declared s)) o2).
    rewrite !lookup_insert_eq. split; [reflexivity|]. split; [reflexivity|].
    destruct (fst (Norm.declared s)) as [[d|] [b|] [a|] [p|]]; cbn;
      repeat split; auto.
Qed.

Lemma resolution_independent_of_baseline_witness :
  store1 !! 1%positive = Some HtmlElement.defaults /\
  Defaults.store0 !! 15%positive
  = Some (HtmlElement.Build "ul" EmptyString EmptyString Display.block
            0 0 4 WhiteSpace.normal) /\
  (snd (CssParse.get_style_attribute "margin-top:-px" 1%positive store1)
   = Raise ValueError <->
   snd (CssParse.get_style_attribute "margin-top:-px" 15%positive
          Defaults.store0) = Raise ValueError).
Proof.
  split; [reflexivity|]. split; [reflexivity|].
  exact (proj1 (resolution_independent_of_baseline "margin-top:-px"
                  1%positive 15%positive store1 Defaults.store0
                  HtmlElement.defaults
                  (HtmlElement.Build "ul" EmptyString EmptyString
                     Display.block 0 0 4 WhiteSpace.normal)
                  eq_refl eq_refl) ValueError).
Defined.

(** X4. No style attribute changes tag, prefix, suffix or whitespace:
    the record a resolution returns has these four fields as the
    baseline has them. *)
Theorem resolution_keeps_other_fields (s : string) (l c : loc)
    (h h' : gmap loc HtmlElement.t) (o : HtmlElement.t) :
  h !! l = Some o ->
  CssParse.get_style_attribute s l h = (h', Ok c) ->
  exists o',
    h' !! c = Some o' /\
    HtmlElement.tag o' = HtmlElement.tag o /\
    HtmlElement.prefix o' = HtmlElement.prefix o /\
    HtmlElement.suffix o' = HtmlElement.suffix o /\
    HtmlElement.whitespace o' = HtmlElement.whitespace o.
Proof.
  intros H E.
  rewrite (get_style_attribute_declared s l h o H) in E.
  destruct (snd (Norm.declared s)); [discriminate|].
  cbn in E. injection E as <- <-.
  exists (Norm.apply (fst (Norm.declared s)) o).
  rewrite lookup_insert_eq. repeat split; reflexivity.
Qed.

Lemma resolution_keeps_other_fields_witness :
  Defaults.store0 !! 30%positive
  = Some (HtmlElement.Build "q" Defaults.dquote Defaults.dquote
            Display.inline 0 0 0 WhiteSpace.normal) /\
  exists h' o',
    CssParse.get_style_attribute "display:block; margin-bottom:2em"
      30%positive Defaults.store0 = (h', Ok 32%positive) /\
    h' !! 32%positive = Some o' /\
    HtmlElement.tag o' = "q" /\
    HtmlElement.prefix o' = Defaults.dquote /\
    HtmlElement.suffix o' = Defaults.dquote /\
    HtmlElement.whitespace o' = WhiteSpace.normal.
Proof.
  split; [reflexivity|].
  assert (E : CssParse.get_style_attribute "display:block; margin-bottom:2em"
                30%positive Defaults.store0
              = (fst (CssParse.get_style_attribute
                        "display:block; margin-bottom:2em"
                        30%positive Defaults.store0), Ok 32%positive))
    by (vm_compute; reflexivity).
  destruct (resolution_keeps_other_fields _ 30%positive 32%positive
              Defaults.store0 _
              (HtmlElement.Build "q" Defaults.dquote Defaults.dquote
                 Display.inline 0 0 0 WhiteSpace.normal)
              eq_refl E) as (o' & Ho & Hf).
  exists (fst (CssParse.get_style_attribute "display:block; margin-bottom:2em"
                 30%positive Defaults.store0)), o'.
  split; [exact E|]. split; [exact Ho | exact Hf].
Defined.

(** X5. A resolution on an object of the store adds exactly one object
    to the store, at a reference that held none, whether it returns or
    raises; a resolution that returns gives that reference, which is
    not the baseline's. *)
Theorem resolution_allocates_once (s : string) (l : loc)
    (h : gmap loc HtmlElement.t) (o : HtmlElement.t) :
  h !! l = Some o ->
  exists c o',
    h !! c = None /\
    c <> l /\
    fst (CssParse.get_style_attribute s l h) = <[c := o']> h /\
    dom (fst (CssParse.get_style_attribute s l h)) = {[c]} ∪ dom h /\
    (forall c', snd (CssParse.get_style_attribute s l h) = Ok c' -> c' = c).
Proof.
  intros H. rewrite (get_style_attribute_spec s l h o H). cbn [fst snd].
  exists (fresh (dom h)), (fst (Sem.resolve s o)).
  pose proof (alloc_fresh h) as Hf.
  split; [exact Hf|]. split; [congruence|]. split; [reflexivity|].
  split; [apply dom_insert_L|].
  intros c'. destruct (snd (Sem.resolve s o)); cbn; congruence.
Qed.

Lemma resolution_allocates_once_witness :
  store1 !! 1%positive = Some HtmlElement.defaults /\
  exists c o',
    store1 !! c = None /\
    c <> 1%positive /\
    fst (CssParse.get_style_attribute "margin-top:-px" 1%positive store1)
    = <[c := o']> store1 /\
    dom (fst (CssParse.get_style_attribute "margin-top:-px" 1%positive store1))
    = {[c]} ∪ dom store1 /\
    (forall c',
       snd (CssParse.get_style_attribute "margin-top:-px" 1%positive store1)
       = Ok c' -> c' = c).
Proof.
  split; [reflexivity|].
  apply (resolution_allocates_once _ 1%positive store1 HtmlElement.defaults).
  reflexivity.
Defined.

Lemma declare_no_AttributeError (d : string) (u : Norm.overrides) :
  Norm.declare d u <> Raise AttributeError.
Proof.
  unfold Norm.declare.
  destruct (Sem.key_value d) as [[k v]|]; [|discriminate].
  destruct (Sem.field_of k) as [[]|]; try discriminate;
    unfold Norm.declare_length;
    destruct (CssParse._get_em v) as [z|[]]; discriminate.
Qed.

Lemma steps_declare_no_AttributeError (ds : list string) (u : Norm.overrides) :
  snd (Sem.steps Norm.declare ds u) <> Some AttributeError.
Proof.
  revert u. induction ds as [|d ds IH]; intros u; [discriminate|].
  cbn [Sem.steps]. pose proof (declare_no_AttributeError d u) as Hd.
  destruct (Norm.declare d u) as [u'|e]; [apply IH|].
  cbn. congruence.
Qed.

(** X6. A resolution on an object of the store never raises
    [AttributeError]: the one raised for a key without handler, and the
    one raised for a length value without number and unit, are both
    caught. *)
Theorem resolution_catches_AttributeError (s : string) (l : loc)
    (h : gmap loc HtmlElement.t) (o : HtmlElement.t) :
  h !! l = Some o ->
  snd (CssParse.get_style_attribute s l h) <> Raise AttributeError.
Proof.
  intros H. rewrite (get_style_attribute_declared s l h o H). cbn [snd].
  pose proof (steps_declare_no_AttributeError (split ";" (lower s))
                Norm.nothing) as Hn.
  fold (Norm.declared s) in Hn.
  destruct (snd (Norm.declared s)); cbn; congruence.
Qed.

Lemma resolution_catches_AttributeError_witness :
  store1 !! 1%positive = Some HtmlElement.defaults /\
  CssParse._get_em "abc" = Raise AttributeError /\
  snd (CssParse.get_style_attribute "colour:red; margin-top:abc"
         1%positive store1) <> Raise AttributeError.
Proof.
  split; [reflexivity|]. split; [reflexivity|].
  apply (resolution_catches_AttributeError _ 1%positive store1
           HtmlElement.defaults).
  reflexivity.
Defined.

(** ** Directives that are passed over *)

Lemma eqb_colon_lower (c : ascii) :
  Ascii.eqb ":" (lower_char c) = Ascii.eqb ":" c.
Proof. destruct c as [[] [] [] [] [] [] [] []]; reflexivity. Qed.

Lemma contains_colon_lower (s : string) :
  contains ":" (lower s) = contains ":" s.
Proof.
  induction s as [|c s IH]; [reflexivity|].
  cbn [lower]. now rewrite !contains_char_cons, eqb_colon_lower, IH.
Qed.

(** The pieces of a string hold no character the string does not hold. *)
Lemma split_pieces_without (c sep : ascii) (t : string) :
  contains (String c EmptyString) t = false ->
  Forall (fun d => contains (String c EmptyString) d = false) (split sep t).
Proof.
  induction t as [|a t IH]; intros H.
  - repeat constructor.
  - rewrite contains_char_cons in H. apply orb_false_elim in H as [Ha Ht].
    specialize (IH Ht). cbn [split].
    destruct (Ascii.eqb a sep).
    + constructor; [reflexivity | exact IH].
    + destruct (split sep t) as [|p ps]; [repeat constructor|].
      * now rewrite contains_char_cons, Ha.
      * inversion IH as [|? ? Hp Hps]; subst.
        constructor; [|exact Hps].
        now rewrite contains_char_cons, Ha, Hp.
Qed.

Lemma steps_all_passed_over (ds : list string) (o : HtmlElement.t) :
  Forall (fun d => Sem.directive d o = Ok o) ds ->
  Sem.steps Sem.directive ds o = (o, None).
Proof.
  induction 1 as [|d ds Hd _ IH]; [reflexivity|].
  cbn [Sem.steps]. now rewrite Hd.
Qed.

(** X7. A style attribute without any ':' declares nothing: resolving
    it returns a new object with the record of the baseline. *)
Theorem style_without_colon_is_clone (s : string) (l : loc)
    (h : gmap loc HtmlElement.t) (o : HtmlElement.t) :
  h !! l = Some o ->
  contains ":" s = false ->
  exists c,
    h !! c = None /\
    CssParse.get_style_attribute s l h = (<[c := o]> h, Ok c).
Proof.
  intros H Hs. apply (get_style_attribute_returns s l h o o H).
  unfold Sem.resolve, Sem.directives. apply steps_all_passed_over.
  rewrite <- contains_colon_lower in Hs.
  apply (Forall_impl _ _ _ (split_pieces_without ":" ";" (lower s) Hs)).
  intros d Hd. exact (proj1 (directive_ignored d o) Hd).
Qed.

Lemma style_without_colon_is_clone_witness :
  store1 !! 1%positive = Some HtmlElement.defaults /\
  contains ":" "display; margin-top 2em;; DISPLAY=none" = false /\
  exists c,
    store1 !! c = None /\
    CssParse.get_style_attribute "display; margin-top 2em;; DISPLAY=none"
      1%positive store1
    = (<[c := HtmlElement.defaults]> store1, Ok c).
Proof.
  split; [reflexivity|]. split; [reflexivity|].
  apply (style_without_colon_is_clone _ 1%positive store1 HtmlElement.defaults);
    reflexivity.
Defined.

Lemma steps_unknown_keys (ds : list string) (o : HtmlElement.t) :
  (forall k v, In (k, v) (omap Sem.key_value ds) -> Sem.field_of k = None) ->
  Sem.steps Sem.directive ds o = (o, None).
Proof.
  intros Hk. apply steps_all_passed_over.
  induction ds as [|d ds IH]; constructor.
  - unfold Sem.directive.
    destruct (Sem.key_value d) as [[k v]|] eqn:E; [|reflexivity].
    rewrite (Hk k v); [reflexivity|].
    cbn [omap list_omap]. rewrite E. now left.
  - apply IH. intros k v Hin. apply (Hk k v).
    cbn [omap list_omap]. destruct (Sem.key_value d); [now right | exact Hin].
Qed.

(** X8. Declarations of properties without a handler are passed over:
    when no key of the style attribute, normalized, is one of display,
    margin_top, margin_bottom, padding_left, margin_before, margin_after
    and padding_start, resolving returns a new object with the record
    of the baseline, whatever the values are. *)
Theorem unknown_properties_are_clone (s : string) (l : loc)
    (h : gmap loc HtmlElement.t) (o : HtmlElement.t) :
  h !! l = Some o ->
  (forall k v, In (k, v) (Sem.declarations s) -> Sem.field_of k = None) ->
  exists c,
    h !! c = None /\
    CssParse.get_style_attribute s l h = (<[c := o]> h, Ok c).
Proof.
  intros H Hk. apply (get_style_attribute_returns s l h o o H).
  unfold Sem.resolve, Sem.directives. now apply steps_unknown_keys.
Qed.

Lemma unknown_properties_are_clone_witness :
  store1 !! 1%positive = Some HtmlElement.defaults /\
  Sem.declarations "color:red; margin:-px; font-size:1.2.3em"
  = [("color", "red"); ("margin", "-px"); ("font-size", "1.2.3em")] /\
  (forall k v,
     In (k, v) (Sem.declarations "color:red; margin:-px; font-size:1.2.3em") ->
     Sem.field_of k = None) /\
  exists c,
    store1 !! c = None /\
    CssParse.get_style_attribute "color:red; margin:-px; font-size:1.2.3em"
      1%positive store1
    = (<[c := HtmlElement.defaults]> store1, Ok c).
Proof.
  assert (Hk : forall k v,
             In (k, v)
                (Sem.declarations "color:red; margin:-px; font-size:1.2.3em") ->
             Sem.field_of k = None).
  { intros k v Hin. vm_compute in Hin.
    destruct Hin as [E|[E|[E|[]]]]; injection E as <- <-; reflexivity. }
  split; [reflexivity|]. split; [reflexivity|]. split; [exact Hk|].
  apply (unknown_properties_are_clone _ 1%positive store1 HtmlElement.defaults);
    [reflexivity | exact Hk].
Defined.

(** X9. Empty directives make no difference: a ';' at the end or at the
    start of a style attribute, and so a doubled ';', leaves the result
    of every resolution as it is. *)
Theorem empty_directives_ignored (s : string) (l : loc)
    (h : gmap loc HtmlElement.t) :
  CssParse.get_style_attribute (s ++ ";") l h
  = CssParse.get_style_attribute s l h /\
  CssParse.get_style_attribute (String ";" s) l h
  = CssParse.get_style_attribute s l h.
Proof.
  destruct (h !! l) as [o|] eqn:H.
  - rewrite !(get_style_attribute_spec _ l h o H).
    pose proof (resolve_seq s EmptyString o) as E1.
    pose proof (resolve_seq EmptyString s o) as E2.
    rewrite append_nil_l in E2.
    change (Sem.resolve EmptyString o) with (o, @None exn) in E2.
    cbn iota in E2. rewrite E1, E2.
    destruct (Sem.resolve s o) as [o1 [e|]]; split; reflexivity.
  - now rewrite !(get_style_attribute_none _ l h H).
Qed.

(** ** Length conversion and the text around the length *)

Lemma float_raises_ValueError (n : string) (e : exn) :
  float n = Raise e -> e = ValueError.
Proof.
  unfold float.
  destruct (match n with
            | String "-" s' => (true, s')
            | _ => (false, n)
            end) as [neg body].
  destruct (read_decimal body false false 0 0) as [[mant scale]|];
    [discriminate | now intros [= <-]].
Qed.

Lemma round_no_AttributeError (x : spec_float) :
  round x <> Raise AttributeError.
Proof. destruct x; discriminate. Qed.

(** X10. Length conversion raises [AttributeError] exactly on the
    values in which [RE_UNIT] finds no number followed by a unit; on a
    value with a match it returns or raises another exception. *)
Theorem get_em_AttributeError_iff_no_match (length : string) :
  CssParse._get_em length = Raise AttributeError <->
  Re.search CssParse.RE_UNIT length = None.
Proof.
  unfold CssParse._get_em. split.
  - destruct (Re.search CssParse.RE_UNIT length) as [gs|]; [|reflexivity].
    cbn [Re.group rbind].
    destruct (float _) as [x|e] eqn:Hx.
    + cbn [rbind]. rewrite !round_int.
      intros H. exfalso.
      destruct (negb _); exact (round_no_AttributeError _ H).
    + apply float_raises_ValueError in Hx as ->. discriminate.
  - now intros ->.
Qed.

Lemma get_em_AttributeError_iff_no_match_witness :
  Re.search CssParse.RE_UNIT "auto" = None /\
  CssParse._get_em "auto" = Raise AttributeError.
Proof.
  split; [reflexivity|].
  apply (proj2 (get_em_AttributeError_iff_no_match "auto")). reflexivity.
Defined.

Lemma search_skips (pre s : string) :
  Ref.all (fun c => negb (CssParse.num c)) pre = true ->
  Re.search CssParse.RE_UNIT (pre ++ s) = Re.search CssParse.RE_UNIT s.
Proof.
  induction pre as [|a pre IH]; intros H; [reflexivity|].
  cbn [Ref.all] in H. apply andb_true_iff in H as [Ha Hp].
  apply negb_true_iff in Ha.
  rewrite append_cons. cbn [Re.search Re.match_here CssParse.RE_UNIT Re.plus].
  rewrite Ha. exact (IH Hp).
Qed.

(** X11. Text before the length is skipped: characters other than '-',
    '.' and the digits, put in front of a value, do not change its
    conversion. *)
Theorem get_em_skips_leading_text (pre length : string) :
  Ref.all (fun c => negb (CssParse.num c)) pre = true ->
  CssParse._get_em (pre ++ length) = CssParse._get_em length.
Proof.
  intros H. unfold CssParse._get_em. now rewrite search_skips.
Qed.

Lemma get_em_skips_leading_text_witness :
  Ref.all (fun c => negb (CssParse.num c)) "calc( " = true /\
  CssParse._get_em ("calc( " ++ "24px )") = CssParse._get_em "24px )" /\
  CssParse._get_em "24px )" = Ok 3.
Proof.
  split; [reflexivity|]. split; [|reflexivity].
  apply (get_em_skips_leading_text "calc( " "24px )"). reflexivity.
Defined.

Lemma starts_in_app (c : ascii -> bool) (r post : string) :
  Ref.starts_in c post = false ->
  Ref.starts_in c (r ++ post) = Ref.starts_in c r.
Proof. destruct r; [now rewrite append_nil_l | reflexivity]. Qed.

Lemma run_app (c : ascii -> bool) (r post : string) :
  Ref.starts_in c post = false ->
  Ref.run c (r ++ post) = Ref.run c r.
Proof.
  intros H. induction r as [|a r IH].
  - rewrite append_nil_l. now apply run_not_starting.
  - rewrite append_cons. cbn [Ref.run]. now rewrite IH.
Qed.

Lemma plus_app {A} (c : ascii -> bool) (k : string -> option A)
    (t post : string) :
  (forall r, k (r ++ post) = k r) ->
  Ref.starts_in c post = false ->
  Re.plus c k (t ++ post) = Re.plus c k t.
Proof.
  intros Hk Hp. induction t as [|a t IH].
  - rewrite append_nil_l. destruct post as [|b post]; [reflexivity|].
    cbn in Hp. cbn [Re.plus]. now rewrite Hp.
  - rewrite append_cons. cbn [Re.plus]. now rewrite IH, Hk.
Qed.

Lemma match_here_RE_UNIT_app (t post : string) :
  Ref.starts_in (fun c => CssParse.num c || Re.word c) post = false ->
  Re.match_here CssParse.RE_UNIT (t ++ post)
  = Re.match_here CssParse.RE_UNIT t.
Proof.
  intros H.
  assert (Hn : Ref.starts_in CssParse.num post = false
               /\ Ref.starts_in Re.word post = false).
  { destruct post as [|b post]; [easy|]. cbn in *.
    now apply orb_false_elim in H. }
  destruct Hn as [Hn Hw].
  cbn [Re.match_here CssParse.RE_UNIT].
  rewrite plus_app; [reflexivity | | exact Hn].
  intros r. rewrite !plus_last. now rewrite starts_in_app, run_app.
Qed.

Lemma search_RE_UNIT_app (s post : string) (m : list string) :
  Ref.starts_in (fun c => CssParse.num c || Re.word c) post = false ->
  Re.search CssParse.RE_UNIT s = Some m ->
  Re.search CssParse.RE_UNIT (s ++ post) = Some m.
Proof.
  intros Hp. induction s as [|a s IH]; intros Hs.
  - discriminate.
  - pose proof (match_here_RE_UNIT_app (String a s) post Hp) as E.
    rewrite append_cons in *. cbn [Re.search] in *. rewrite E.
    destruct (Re.match_here CssParse.RE_UNIT (String a s));
      [exact Hs | exact (IH Hs)].
Qed.

(** X12. Text after the length is ignored: when a value has a number
    and unit, what follows the value, if it starts with a character
    that is neither a word character nor '-' or '.', does not change
    its conversion. *)
Theorem get_em_ignores_trailing_text (length post : string) (m : list string) :
  Re.search CssParse.RE_UNIT length = Some m ->
  Ref.starts_in (fun c => CssParse.num c || Re.word c) post = false ->
  CssParse._get_em (length ++ post) = CssParse._get_em length.
Proof.
  intros Hs Hp. unfold CssParse._get_em.
  now rewrite (search_RE_UNIT_app length post m Hp Hs), Hs.
Qed.

Lemma get_em_ignores_trailing_text_witness :
  Re.search CssParse.RE_UNIT "2em" = Some ["2"; "em"] /\
  Ref.starts_in (fun c => CssParse.num c || Re.word c) " !important" = false /\
  CssParse._get_em ("2em" ++ " !important") = CssParse._get_em "2em" /\
  CssParse._get_em "2em" = Ok 2.
Proof.
  split; [reflexivity|]. split; [reflexivity|]. split; [|reflexivity].
  apply (get_em_ignores_trailing_text "2em" " !important" ["2"; "em"]);
    reflexivity.
Defined.

(** ** The sign of a length *)

Lemma binary_round_aux_opp (mx ex : Z) (lx : location) :
  binary_round_aux prec emax true mx ex lx
  = SFopp (binary_round_aux prec emax false mx ex lx).
Proof.
  unfold binary_round_aux.
  destruct (shr_fexp prec emax mx ex lx) as [mrs e'].
  destruct (shr_fexp prec emax _ e' loc_Exact) as [mrs' e''].
  destruct (shr_m mrs'); [reflexivity | | reflexivity].
  now destruct (e'' <=? emax - prec).
Qed.

Lemma float_of_ratio_opp (n d : Z) :
  float_of_ratio true n d = SFopp (float_of_ratio false n d).
Proof.
  unfold float_of_ratio. destruct (n =? 0); [reflexivity|].
  destruct (SFdiv_core_binary prec emax n 0 d 0) as [[q e] l].
  apply binary_round_aux_opp.
Qed.

Lemma div8_opp (x : spec_float) : div8 (SFopp x) = SFopp (div8 x).
Proof.
  destruct x as [s|s| |s m e]; cbn; [now destruct s | now destruct s | reflexivity |].
  destruct (SFdiv_core_binary prec emax (Z.pos m) e 4503599627370496 (-49))
    as [[q e'] l].
  destruct s; cbn [negb xorb]; rewrite binary_round_aux_opp;
    [|reflexivity].
  now destruct (binary_round_aux prec emax false q e' l) as [[]|[]| |[] ? ?].
Qed.

Lemma round_opp (x : spec_float) :
  round (SFopp x)
  = match round x with
    | Ok z => Ok (- z)
    | Raise e => Raise e
    end.
Proof.
  destruct x as [s|s| |s m e]; cbn [SFopp round]; try reflexivity.
  destruct s; cbn [negb]; f_equal; lia.
Qed.

(** A '-' in front of a literal without sign gives the opposite float. *)
Lemma float_opp (n : string) :
  startswith "-" n = false ->
  float (String "-" n)
  = match float n with
    | Ok x => Ok (SFopp x)
    | Raise e => Raise e
    end.
Proof.
  intros Hn. unfold float.
  assert (E : match n with
              | String "-" s' => (true, s')
              | _ => (false, n)
              end = (false, n)).
  { destruct n as [|a n]; [reflexivity|]. cbn [startswith] in Hn.
    rewrite andb_true_r in Hn.
    destruct a as [[] [] [] [] [] [] [] []]; try reflexivity. discriminate. }
  rewrite E.
  destruct (read_decimal n false false 0 0) as [[mant scale]|]; [|reflexivity].
  now rewrite float_of_ratio_opp.
Qed.

(** X13. Conversion is odd in the length: when a value starts with its
    number, written without sign, the value with '-' in front converts
    to the opposite integer, or raises the same exception; ties are
    rounded alike on both sides of zero. *)
Theorem get_em_of_negated_length (length n u : string) :
  Re.match_here CssParse.RE_UNIT length = Some [n; u] ->
  startswith "-" n = false ->
  CssParse._get_em (String "-" length)
  = match CssParse._get_em length with
    | Ok z => Ok (- z)
    | Raise e => Raise e
    end.
Proof.
  intros Hm Hn.
  assert (Hs : Re.search CssParse.RE_UNIT length = Some [n; u]).
  { destruct length; cbn [Re.search]; now rewrite Hm. }
  assert (Hs' : Re.search CssParse.RE_UNIT (String "-" length)
                = Some [String "-" n; u]).
  { cbn [Re.search Re.match_here CssParse.RE_UNIT] in *.
    cbn [Re.plus].
    change (CssParse.num "-") with true. cbn iota.
    destruct (Re.plus CssParse.num _ length) as [[g gs]|]; [|discriminate].
    now injection Hm as -> ->. }
  unfold CssParse._get_em. rewrite Hs, Hs'.
  cbn [Re.group nth Nat.pred rbind]. rewrite (float_opp n Hn).
  destruct (float n) as [x|e]; [|reflexivity].
  cbn [rbind]. rewrite !round_int.
  destruct (negb _); [rewrite div8_opp|]; apply round_opp.
Qed.

Lemma get_em_of_negated_length_witness :
  Re.match_here CssParse.RE_UNIT "20px" = Some ["20"; "px"] /\
  startswith "-" "20" = false /\
  CssParse._get_em "20px" = Ok 2 /\
  CssParse._get_em "-20px" = Ok (-2).
Proof.
  split; [reflexivity|]. split; [reflexivity|]. split; [reflexivity|].
  exact (get_em_of_negated_length "20px" "20" "px" eq_refl eq_refl).
Defined.

(** ** The handlers *)

Lemma display_handler_ok (value : string) (c : loc)
    (h : gmap loc HtmlElement.t) :
  handler_ok c h (CssParse._attr_display value c h).
Proof.
  destruct (h !! c) as [o|] eqn:H.
  - rewrite (display_handler_spec value c h o H). cbn.
    exists o, (HtmlElement.set_display (Sem.display_of value) o).
    repeat split; assumption.
  - unfold CssParse._attr_display.
    destruct (String.eqb value "block"), (String.eqb value "none");
      unfold Store.setattr; now rewrite H.
Qed.

Lemma length_handler_ok (upd : Z -> HtmlElement.t -> HtmlElement.t)
    (value : string) (c : loc) (h : gmap loc HtmlElement.t) :
  (forall z o,
     HtmlElement.tag (upd z o) = HtmlElement.tag o /\
     HtmlElement.prefix (upd z o) = HtmlElement.prefix o /\
     HtmlElement.suffix (upd z o) = HtmlElement.suffix o /\
     HtmlElement.whitespace (upd z o) = HtmlElement.whitespace o) ->
  handler_ok c h
    (Store.bind (Store.lift (CssParse._get_em value))
                (fun em => Store.setattr c (upd em)) h).
Proof.
  intros Hupd. unfold Store.bind, Store.lift, Store.setattr.
  destruct (CssParse._get_em value) as [z|e]; [|reflexivity].
  destruct (h !! c) as [o|] eqn:H; [|reflexivity].
  cbn. exists o, (upd z o). split; [exact H|]. split; [reflexivity|].
  apply Hupd.
Qed.

(** The seven names of the class give four handlers. *)
Lemma getattr_CssParse_handler (name : string) (h h1 : gmap loc HtmlElement.t)
    (f : string -> loc -> Store.M HtmlElement.t unit) :
  CssParse.getattr_CssParse name h = (h1, Ok f) ->
  f = CssParse._attr_display \/ f = CssParse._attr_margin_top \/
  f = CssParse._attr_margin_bottom \/ f = CssParse._attr_padding_left.
Proof.
  unfold CssParse.getattr_CssParse, Store.ret, Store.raise.
  repeat match goal with
         | |- context [if ?b then _ else _] => destruct b
         end;
    intros [= <- <-]; auto.
Qed.

Lemma handler_of_class_ok (name value : string) (c : loc)
    (h : gmap loc HtmlElement.t)
    (f : string -> loc -> Store.M HtmlElement.t unit) :
  CssParse.getattr_CssParse name h = (h, Ok f) ->
  handler_ok c h (f value c h).
Proof.
  intros Hf.
  destruct (getattr_CssParse_handler name h h f Hf) as [-> | [-> | [-> | ->]]].
  - apply display_handler_ok.
  - apply (length_handler_ok HtmlElement.set_margin_before).
    intros z o. repeat split; reflexivity.
  - apply (length_handler_ok HtmlElement.set_margin_after).
    intros z o. repeat split; reflexivity.
  - apply (length_handler_ok HtmlElement.set_padding).
    intros z o. repeat split; reflexivity.
Qed.

(** X14. Every handler of the class, called on an object, either raises
    and leaves the store untouched, so that a length that does not
    convert changes nothing, or returns having replaced the record of
    that object alone, with tag, prefix, suffix and whitespace kept. *)
Theorem handlers_change_one_object (name value : string) (c : loc)
    (h : gmap loc HtmlElement.t)
    (f : string -> loc -> Store.M HtmlElement.t unit) :
  CssParse.getattr_CssParse name h = (h, Ok f) ->
  handler_ok c h (f value c h).
Proof. exact (handler_of_class_ok name value c h f). Qed.

Lemma handlers_change_one_object_witness :
  CssParse.getattr_CssParse "_attr_padding_start" store1
  = (store1, Ok CssParse._attr_padding_left) /\
  handler_ok 1%positive store1
    (CssParse._attr_padding_left "1.2.3px" 1%positive store1) /\
  CssParse._attr_padding_left "1.2.3px" 1%positive store1
  = (store1, Raise ValueError) /\
  handler_ok 1%positive store1
    (CssParse._attr_padding_left "32px" 1%positive store1) /\
  CssParse._attr_padding_left "32px" 1%positive store1
  = (<[1%positive := HtmlElement.set_padding 4 HtmlElement.defaults]> store1,
     Ok tt).
Proof.
  split; [reflexivity|].
  split; [exact (handlers_change_one_object "_attr_padding_start" "1.2.3px"
                   1%positive store1 _ eq_refl)|].
  split; [reflexivity|].
  split; [exact (handlers_change_one_object "_attr_padding_start" "32px"
                   1%positive store1 _ eq_refl)|].
  vm_compute. reflexivity.
Defined.

Lemma handler_ok_frame (c l0 : loc) (h : gmap loc HtmlElement.t)
    (r : gmap loc HtmlElement.t * result unit) :
  handler_ok c h r -> l0 <> c -> fst r !! l0 = h !! l0.
Proof.
  destruct r as [h' [[]|e]]; cbn.
  - intros (o & o' & _ & -> & _) Hne. now rewrite lookup_insert_ne.
  - now intros ->.
Qed.

(** X15. A clone shares no state with its source: [clone] returns a new
    reference with the record of the source, and whatever handler is
    then called on the clone, with whatever value, the source keeps its
    record; and likewise the clone when the handler is called on the
    source. *)
Theorem clone_is_independent (name value : string) (l : loc)
    (h : gmap loc HtmlElement.t) (o : HtmlElement.t)
    (f : string -> loc -> Store.M HtmlElement.t unit) :
  h !! l = Some o ->
  CssParse.getattr_CssParse name h = (h, Ok f) ->
  exists c h1,
    HtmlElement.clone l h = (h1, Ok c) /\
    c <> l /\
    h1 !! c = Some o /\
    fst (f value c h1) !! l = Some o /\
    fst (f value l h1) !! c = Some o.
Proof.
  intros H Hf. exists (fresh (dom h)), (<[fresh (dom h) := o]> h).
  pose proof (alloc_fresh h) as Hfresh.
  assert (Hne : fresh (dom h) <> l) by congruence.
  assert (Hf1 : CssParse.getattr_CssParse name (<[fresh (dom h) := o]> h)
                = (<[fresh (dom h) := o]> h, Ok f)).
  { revert Hf. unfold CssParse.getattr_CssParse, Store.ret, Store.raise.
    repeat match goal with
           | |- context [if ?b then _ else _] => destruct b
           end;
      intros [= <-]; reflexivity || discriminate. }
  split; [now apply clone_some|]. split; [exact Hne|].
  split; [apply lookup_insert_eq|]. split.
  - rewrite (handler_ok_frame (fresh (dom h)) l _ _
               (handler_of_class_ok name value _ _ f Hf1))
      by congruence.
    now rewrite lookup_insert_ne.
  - rewrite (handler_ok_frame l (fresh (dom h)) _ _
               (handler_of_class_ok name value _ _ f Hf1))
      by exact Hne.
    apply lookup_insert_eq.
Qed.

Lemma clone_is_independent_witness :
  store1 !! 1%positive = Some HtmlElement.defaults /\
  CssParse.getattr_CssParse "_attr_display" store1
  = (store1, Ok CssParse._attr_display) /\
  exists c h1,
    HtmlElement.clone 1%positive store1 = (h1, Ok c) /\
    c <> 1%positive /\
    h1 !! c = Some HtmlElement.defaults /\
    fst (CssParse._attr_display "none" c h1) !! 1%positive
    = Some HtmlElement.defaults /\
    fst (CssParse._attr_display "none" 1%positive h1) !! c
    = Some HtmlElement.defaults.
Proof.
  split; [reflexivity|]. split; [reflexivity|].
  exact (clone_is_independent "_attr_display" "none" 1%positive store1
           HtmlElement.defaults CssParse._attr_display eq_refl eq_refl).
Defined.

(** ** The table of defaults *)

Lemma DEFAULT_CSS_entries (tag : string) (l0 : loc) :
  Defaults.DEFAULT_CSS !! tag = Some l0 ->
  exists o,
    Defaults.store0 !! l0 = Some o /\
    HtmlElement.tag o = tag /\
    Sem.nonneg o /\
    HtmlElement.whitespace o = WhiteSpace.normal.
Proof.
  intros H.
  assert (Hall : map_Forall
                   (fun t l1 =>
                      match Defaults.store0 !! l1 with
                      | Some o =>
                          String.eqb (HtmlElement.tag o) t
                          && (0 <=? HtmlElement.margin_before o)
                          && (0 <=? HtmlElement.margin_after o)
                          && (0 <=? HtmlElement.padding o)
                          && match HtmlElement.whitespace o with
                             | WhiteSpace.normal => true
                             | WhiteSpace.pre => false
                             end
                      | None => false
                      end = true)
                   Defaults.DEFAULT_CSS).
  { apply (bool_decide_unpack _). vm_compute. exact I. }
  specialize (Hall tag l0 H). cbn beta in Hall.
  destruct (Defaults.store0 !! l0) as [o|]; [|discriminate].
  exists o. split; [reflexivity|].
  repeat (apply andb_true_iff in Hall as [Hall ?]).
  split; [now apply String.eqb_eq|]. split.
  - unfold Sem.nonneg. repeat split; now apply Z.leb_le.
  - now destruct (HtmlElement.whitespace o).
Qed.

(** X16. The table of defaults is well formed, and stays so: in every
    store reached from the loaded module by resolutions, each of its 31
    keys refers to an object whose tag is the key, whose margins and
    padding are not negative and whose whitespace is normal; and no two
    keys refer to one object. *)
Theorem DEFAULT_CSS_well_formed (h : gmap loc HtmlElement.t) :
  reachable h ->
  size Defaults.DEFAULT_CSS = 31%nat /\
  (forall tag l0,
     Defaults.DEFAULT_CSS !! tag = Some l0 ->
     exists o,
       h !! l0 = Some o /\
       HtmlElement.tag o = tag /\
       Sem.nonneg o /\
       HtmlElement.whitespace o = WhiteSpace.normal) /\
  (forall tag1 tag2 l0,
     Defaults.DEFAULT_CSS !! tag1 = Some l0 ->
     Defaults.DEFAULT_CSS !! tag2 = Some l0 ->
     tag1 = tag2).
Proof.
  intros Hr. split; [vm_compute; reflexivity|]. split.
  - intros tag l0 H. destruct (DEFAULT_CSS_entries tag l0 H) as (o & Ho & Hp).
    exists o. split; [|exact Hp].
    exact (reachable_keeps_loaded h Hr l0 o Ho).
  - intros tag1 tag2 l0 H1 H2.
    destruct (DEFAULT_CSS_entries tag1 l0 H1) as (o1 & Ho1 & <- & _).
    destruct (DEFAULT_CSS_entries tag2 l0 H2) as (o2 & Ho2 & <- & _).
    congruence.
Qed.

Lemma DEFAULT_CSS_well_formed_witness :
  reachable (fst (CssParse.get_style_attribute "margin-top:-40px"
                    15%positive Defaults.store0)) /\
  Defaults.DEFAULT_CSS !! "ul" = Some 15%positive /\
  exists o,
    fst (CssParse.get_style_attribute "margin-top:-40px"
           15%positive Defaults.store0) !! 15%positive = Some o /\
    HtmlElement.tag o = "ul" /\
    Sem.nonneg o /\
    HtmlElement.whitespace o = WhiteSpace.normal.
Proof.
  assert (Hr : reachable (fst (CssParse.get_style_attribute "margin-top:-40px"
                                 15%positive Defaults.store0))).
  { apply reach_resolve; [exact reach_loaded|]. vm_compute. eauto. }
  split; [exact Hr|]. split; [reflexivity|].
  exact (proj1 (proj2 (DEFAULT_CSS_well_formed _ Hr)) "ul" 15%positive eq_refl).
Defined.

(** ** The vendor prefix in front of a declaration *)

Lemma contains_char_app (c : ascii) (a d : string) :
  contains (String c EmptyString) (a ++ d)
  = contains (String c EmptyString) a || contains (String c EmptyString) d.
Proof.
  induction a as [|x a IH].
  - rewrite append_nil_l. now destruct d.
  - rewrite append_cons, !contains_char_cons, IH. now rewrite orb_assoc.
Qed.

Lemma split1_nonempty (sep : ascii) (s : string) : split1 sep s <> [].
Proof.
  destruct s as [|c s]; cbn; [discriminate|].
  destruct (Ascii.eqb c sep); [discriminate|].
  destruct (split1 sep s); discriminate.
Qed.

(** A text without the separator stays in front of the first piece. *)
Lemma split_prefix (sep : ascii) (a t : string) :
  contains (String sep EmptyString) a = false ->
  split sep (a ++ t)
  = (a ++ hd EmptyString (split sep t))%string :: tl (split sep t).
Proof.
  induction a as [|x a IH]; intros H.
  - rewrite append_nil_l. pose proof (split_nonempty sep t).
    now destruct (split sep t).
  - rewrite contains_char_cons in H. apply orb_false_elim in H as [Hx Ha].
    rewrite append_cons. cbn [split].
    rewrite Ascii.eqb_sym, Hx, (IH Ha). reflexivity.
Qed.

Lemma split1_prefix (sep : ascii) (a t : string) :
  contains (String sep EmptyString) a = false ->
  split1 sep (a ++ t)
  = (a ++ hd EmptyString (split1 sep t))%string :: tl (split1 sep t).
Proof.
  induction a as [|x a IH]; intros H.
  - rewrite append_nil_l. pose proof (split1_nonempty sep t).
    now destruct (split1 sep t).
  - rewrite contains_char_cons in H. apply orb_false_elim in H as [Hx Ha].
    rewrite append_cons. cbn [split1].
    rewrite Ascii.eqb_sym, Hx, (IH Ha). reflexivity.
Qed.

Lemma split_head_start (P : ascii -> bool) (sep : ascii) (t : string) :
  Ref.starts_in P t = false ->
  Ref.starts_in P (hd EmptyString (split sep t)) = false.
Proof.
  destruct t as [|c t]; [reflexivity|]. cbn [Ref.starts_in split].
  intros H. destruct (Ascii.eqb c sep); [reflexivity|].
  now destruct (split sep t).
Qed.

Lemma split1_head_start (P : ascii -> bool) (sep : ascii) (t : string) :
  Ref.starts_in P t = false ->
  Ref.starts_in P (hd EmptyString (split1 sep t)) = false.
Proof.
  destruct t as [|c t]; [reflexivity|]. cbn [Ref.starts_in split1].
  intros H. destruct (Ascii.eqb c sep); [reflexivity|].
  now destruct (split1 sep t).
Qed.

Lemma rstrip_cons (x : ascii) (s : string) :
  isspace x = false -> rstrip (String x s) = String x (rstrip s).
Proof. intros H. cbn [rstrip]. rewrite H. now destruct (rstrip s). Qed.

Lemma lstrip_id (k : string) :
  Ref.starts_in isspace k = false -> lstrip k = k.
Proof. destruct k as [|c k]; [reflexivity|]. cbn. now intros ->. Qed.

Lemma strip_webkit (k : string) :
  Ref.starts_in isspace k = false ->
  strip ("-webkit-" ++ k) = ("-webkit-" ++ strip k)%string.
Proof.
  intros H. unfold strip. rewrite (lstrip_id k H).
  change (lstrip ("-webkit-" ++ k)) with ("-webkit-" ++ k)%string.
  change ("-webkit-" ++ k)%string
    with (String "-" (String "w" (String "e" (String "b" (String "k"
           (String "i" (String "t" (String "-" k)))))))).
  now rewrite !rstrip_cons by reflexivity.
Qed.

Lemma field_of_webkit (key : string) :
  Sem.field_of ("-webkit-" ++ key) = Sem.field_of key.
Proof.
  unfold Sem.field_of, Sem.normalize.
  pose proof (replace_webkit_inside EmptyString key eq_refl) as E.
  change (replace "-webkit-" EmptyString ("-webkit-" ++ key)
          = replace "-webkit-" EmptyString key) in E.
  now rewrite E.
Qed.

Lemma directive_webkit (d : string) (o : HtmlElement.t) :
  Ref.starts_in isspace d = false ->
  Sem.directive ("-webkit-" ++ d) o = Sem.directive d o.
Proof.
  intros H. unfold Sem.directive, Sem.key_value.
  rewrite contains_char_app. change (contains ":" "-webkit-") with false.
  cbn [orb]. destruct (contains ":" d); [|reflexivity].
  rewrite (split1_prefix ":" "-webkit-" d eq_refl).
  pose proof (split1_head_start isspace ":" d H) as Hk.
  destruct (split1 ":" d) as [|k [|v [|w ws]]]; cbn [hd tl] in *;
    try reflexivity.
  now rewrite (strip_webkit k Hk), field_of_webkit.
Qed.

Lemma isspace_lower (c : ascii) : isspace (lower_char c) = isspace c.
Proof. destruct c as [[] [] [] [] [] [] [] []]; reflexivity. Qed.

Lemma resolve_webkit (s : string) (o : HtmlElement.t) :
  Ref.starts_in isspace s = false ->
  Sem.resolve ("-webkit-" ++ s) o = Sem.resolve s o.
Proof.
  intros H. unfold Sem.resolve, Sem.directives.
  rewrite lower_app. change (lower "-webkit-") with "-webkit-".
  rewrite (split_prefix ";" "-webkit-" (lower s) eq_refl).
  assert (Hl : Ref.starts_in isspace (lower s) = false).
  { destruct s as [|c s]; [reflexivity|]. cbn in *. now rewrite isspace_lower. }
  pose proof (split_head_start isspace ";" (lower s) Hl) as Hd.
  pose proof (split_nonempty ";" (lower s)) as Hne.
  destruct (split ";" (lower s)) as [|d ds]; [congruence|].
  cbn [hd tl Sem.steps] in *. now rewrite (directive_webkit d o Hd).
Qed.

(** X17. The prefix '-webkit-' in front of a declaration is dropped
    whatever the property is: at the start of a style attribute, or
    behind a ';', a declaration that does not begin with white space
    resolves with the prefix as it does without. *)
Theorem webkit_prefix_ignored (s1 s2 : string) (l : loc)
    (h : gmap loc HtmlElement.t) :
  Ref.starts_in isspace s2 = false ->
  CssParse.get_style_attribute ("-webkit-" ++ s2) l h
  = CssParse.get_style_attribute s2 l h /\
  CssParse.get_style_attribute (s1 ++ String ";" ("-webkit-" ++ s2)) l h
  = CssParse.get_style_attribute (s1 ++ String ";" s2) l h.
Proof.
  intros H. destruct (h !! l) as [o|] eqn:Hl.
  - rewrite !(get_style_attribute_spec _ l h o Hl).
    rewrite !resolve_seq, (resolve_webkit s2 o H).
    split; [reflexivity|].
    destruct (Sem.resolve s1 o) as [o1 [e|]]; [reflexivity|].
    now rewrite (resolve_webkit s2 o1 H).
  - now rewrite !(get_style_attribute_none _ l h Hl).
Qed.

Lemma webkit_prefix_ignored_witness :
  Ref.starts_in isspace "padding-start: 24px" = false /\
  CssParse.get_style_attribute
    ("display:block" ++ String ";" ("-webkit-" ++ "padding-start: 24px"))
    1%positive store1
  = CssParse.get_style_attribute
      ("display:block" ++ String ";" "padding-start: 24px") 1%positive store1 /\
  CssParse.get_style_attribute "display:block;padding-start: 24px"
    1%positive store1
  = (<[2%positive :=
         HtmlElement.set_padding 3
           (HtmlElement.set_display Display.block HtmlElement.defaults)]>
       store1, Ok 2%positive).
Proof.
  split; [reflexivity|]. split; [|vm_compute; reflexivity].
  exact (proj2 (webkit_prefix_ignored "display:block" "padding-start: 24px"
                  1%positive store1 eq_refl)).
Defined.

(** ** Values without a unit *)

Lemma num_of_digit (c : ascii) : between 48 57 c = true -> CssParse.num c = true.
Proof. intros H. unfold CssParse.num. rewrite H. now rewrite orb_true_r. Qed.

Lemma word_of_digit (c : ascii) : between 48 57 c = true -> Re.word c = true.
Proof. intros H. unfold Re.word. now rewrite H. Qed.

(** On digits followed by nothing, the repetition gives its last digit
    back to the unit. *)
Lemma plus_digits (n : string) (d : ascii) :
  Ref.all (between 48 57) n = true ->
  n <> EmptyString ->
  between 48 57 d = true ->
  Re.plus CssParse.num (Re.match_here [Re.word]) (n ++ String d EmptyString)
  = Some (n, [String d EmptyString]).
Proof.
  intros Hn Hne Hd.
  assert (Hlast : Re.plus CssParse.num (Re.match_here [Re.word])
                    (String d EmptyString) = None).
  { cbn. now rewrite (num_of_digit d Hd). }
  assert (Hk : Re.match_here [Re.word] (String d EmptyString)
               = Some [String d EmptyString]).
  { cbn. now rewrite (word_of_digit d Hd). }
  induction n as [|a n IH]; [congruence|].
  cbn [Ref.all] in Hn. apply andb_true_iff in Hn as [Ha Hn].
  rewrite append_cons. cbn [Re.plus]. rewrite (num_of_digit a Ha).
  destruct n as [|b n].
  - rewrite append_nil_l, Hlast, Hk. reflexivity.
  - now rewrite (IH Hn).
Qed.

(** X18. A value made of digits only has no unit of its own: with two
    digits or more, the last digit is taken for the unit and the digits
    before it, divided by 8, for the length; a single digit has no
    number followed by a unit, and conversion raises
    [AttributeError]. *)
Theorem get_em_of_digits (n : string) (d : ascii) :
  Ref.all (between 48 57) n = true ->
  n <> EmptyString ->
  between 48 57 d = true ->
  Re.search CssParse.RE_UNIT (n ++ String d EmptyString)
  = Some [n; String d EmptyString] /\
  CssParse._get_em (n ++ String d EmptyString)
  = (let* x := float n in round (div8 x)) /\
  CssParse._get_em (String d EmptyString) = Raise AttributeError.
Proof.
  intros Hn Hne Hd.
  assert (Hs : Re.search CssParse.RE_UNIT (n ++ String d EmptyString)
               = Some [n; String d EmptyString]).
  { destruct n as [|a n]; [congruence|].
    rewrite append_cons. cbn [Re.search Re.match_here CssParse.RE_UNIT].
    rewrite <- append_cons.
    change (fun s : string =>
              match Re.plus Re.word (fun _ : string => Some []) s with
              | Some (g, gs) => Some (g :: gs)
              | None => None
              end) with (Re.match_here [Re.word]).
    now rewrite (plus_digits (String a n) d Hn Hne Hd). }
  split; [exact Hs|]. split.
  - unfold CssParse._get_em. rewrite Hs.
    cbn [Re.group nth Nat.pred rbind].
    destruct (float n) as [x|e]; [|reflexivity].
    cbn [rbind CssParse.in_tuple existsb String.eqb].
    rewrite round_int.
    now destruct (Ascii.eqb d "e"), (Ascii.eqb d "q"), (Ascii.eqb d "r").
  - unfold CssParse._get_em.
    cbn [Re.search Re.match_here CssParse.RE_UNIT Re.plus].
    rewrite (num_of_digit d Hd). reflexivity.
Qed.

Lemma get_em_of_digits_witness :
  Ref.all (between 48 57) "10" = true /\
  CssParse._get_em ("10" ++ "0") = Ok 1 /\
  CssParse._get_em "0" = Raise AttributeError.
Proof.
  destruct (get_em_of_digits "10" "0" eq_refl ltac:(discriminate) eq_refl)
    as (_ & Hem & Hone).
  split; [reflexivity|]. split; [exact Hem | exact Hone].
Defined.
